(** * A shallow embedding of the CHIP-8 core (chip8-c++/core)

    The C++ core is one mutable [Core] struct driven through
    [run_for_instruction], [tick_timers] and [update_hexpad].  It is
    modelled here as state passing over a record with the same fields.
    A failing [assert] aborts the process, so every method that can
    reach one runs in a state-and-abort monad: the result is either the
    returned value with the new state, or the fault that stopped the
    program.

    Fixed-width integers are [Z] with the conversions written where the
    C++ converts (a [uint8_t] parameter takes its argument modulo 256,
    and so on); [std::array]s are lists read and written by index. *)

From Stdlib Require Import ZArith Lia.
From stdpp Require Import base tactics option list numbers.

#[local] Open Scope Z_scope.

(** ** Integer conversions *)

Definition to_uint8 (z : Z) : Z := z mod 256.
Definition to_uint16 (z : Z) : Z := z mod 65536.
Definition to_uint32 (z : Z) : Z := z mod 4294967296.

(** A [bool] converted to an integer, as in [this->v[15] = value]. *)
Definition of_bool (b : bool) : Z := if b then 1 else 0.

(** ** Faults: the ways the process is stopped *)

Inductive fault : Type :=
| rom_too_large                               (* "ROM is too large to be loaded" *)
| invalid_instruction (addr instruction : Z)  (* the [invalid_instr] label *)
| index_out_of_range                          (* an accessor's bounds [assert] *)
| unreachable_code.                           (* the [unreachable_code] macro *)

Inductive result (A : Type) : Type :=
| Ok (a : A)
| Abort (f : fault).
Arguments Ok {A} a.
Arguments Abort {A} f.

(** Reading a [std::array] cell whose index has passed its assert. *)
Definition at_index (l : list Z) (index : Z) : Z :=
  default 0 (l !! Z.to_nat index).

(** ** struct Framebuffer *)

Module Framebuffer.

Definition PIXEL_OFF : Z := 0.
Definition PIXEL_ON : Z := 4294967295.
Definition FB_WIDTH : Z := 60.
Definition FB_HEIGHT : Z := 60.

Record t : Type := mk { pixel_array : list Z }.

(** [Framebuffer()] in a value-initialisation: every cell is zero. *)
Definition zero_init : t := mk (replicate 3600 0).

Definition pixel_status (fb : t) (x y : Z) : result bool :=
  if (x <? FB_WIDTH) && (y <? FB_HEIGHT)
  then Ok (at_index (pixel_array fb) (y * FB_WIDTH + x) =? PIXEL_ON)
  else Abort index_out_of_range.

Definition set_pixel (fb : t) (x y : Z) (status : bool) : result t :=
  if (x <? FB_WIDTH) && (y <? FB_HEIGHT)
  then Ok (mk (<[Z.to_nat (y * FB_WIDTH + x) :=
                 if status then PIXEL_ON else PIXEL_OFF]> (pixel_array fb)))
  else Abort index_out_of_range.

(** [pixel_array = {PIXEL_OFF}]: the first cell is given, the others
    are value-initialised. *)
Definition clear (fb : t) : t :=
  mk (PIXEL_OFF :: replicate 3599 0).

Definition width (fb : t) : Z := FB_WIDTH.
Definition height (fb : t) : Z := FB_HEIGHT.

End Framebuffer.

(** ** struct Hexpad *)

Module Hexpad.

Record t : Type := mk { hexpad_bitmap : Z }.

Definition zero_init : t := mk 0.

Definition bitmap (h : t) : Z := hexpad_bitmap h.

Definition is_key_pressed (h : t) (index : Z) : result bool :=
  if index <? 16
  then Ok (negb (Z.land (hexpad_bitmap h) (Z.shiftl 1 index) =? 0))
  else Abort index_out_of_range.

Definition update_hexpad (h : t) (bitmap : Z) : t := mk (to_uint16 bitmap).

End Hexpad.

(** ** struct Core *)

Module Core.

Definition STACK_SIZE : Z := 16.

Definition FONT_DATA : list Z :=
  [ 0xF0; 0x90; 0x90; 0x90; 0xF0;
    0x20; 0x60; 0x20; 0x20; 0x70;
    0xF0; 0x10; 0xF0; 0x80; 0xF0;
    0xF0; 0x10; 0xF0; 0x10; 0xF0;
    0x90; 0x90; 0xF0; 0x10; 0x10;
    0xF0; 0x80; 0xF0; 0x10; 0xF0;
    0xF0; 0x80; 0xF0; 0x90; 0xF0;
    0xF0; 0x10; 0x20; 0x40; 0x40;
    0xF0; 0x90; 0xF0; 0x90; 0xF0;
    0xF0; 0x90; 0xF0; 0x10; 0xF0;
    0xF0; 0x90; 0xF0; 0x90; 0x90;
    0xE0; 0x90; 0xE0; 0x90; 0xE0;
    0xF0; 0x80; 0x80; 0x80; 0xF0;
    0xE0; 0x90; 0x90; 0x90; 0xE0;
    0xF0; 0x80; 0xF0; 0x80; 0xF0;
    0xF0; 0x80; 0xF0; 0x80; 0x80 ].

Record t : Type := mk {
  v : list Z;                        (* std::array<uint8_t, 0x10> *)
  pc : Z;                            (* uint16_t *)
  i : Z;                             (* uint16_t *)
  main_memory : list Z;              (* std::array<uint8_t, 0x1000> *)
  sp : Z;                            (* size_t *)
  stack : list Z;                    (* std::array<uint16_t, STACK_SIZE> *)
  timer_sound : Z;                   (* uint8_t *)
  timer_delay : Z;                   (* uint8_t *)
  fb : Framebuffer.t;
  hexpad : Hexpad.t;
  is_waiting_for_keypress : bool;
  keypress_index_register : Z        (* size_t *)
}.

(** [Core()] in [auto core = Core();]: the constructor is defaulted
    on its first declaration, so the object is zero-initialised. *)
Definition zero_init : t :=
  mk (replicate 16 0) 0 0 (replicate 4096 0) 0 (replicate 16 0) 0 0
     Framebuffer.zero_init Hexpad.zero_init false 0.

(** Assignments to one field. *)
Definition with_v (a : list Z) (s : t) : t :=
  mk a (pc s) (i s) (main_memory s) (sp s) (stack s) (timer_sound s)
     (timer_delay s) (fb s) (hexpad s) (is_waiting_for_keypress s)
     (keypress_index_register s).
Definition with_pc (a : Z) (s : t) : t :=
  mk (v s) a (i s) (main_memory s) (sp s) (stack s) (timer_sound s)
     (timer_delay s) (fb s) (hexpad s) (is_waiting_for_keypress s)
     (keypress_index_register s).
Definition with_i (a : Z) (s : t) : t :=
  mk (v s) (pc s) a (main_memory s) (sp s) (stack s) (timer_sound s)
     (timer_delay s) (fb s) (hexpad s) (is_waiting_for_keypress s)
     (keypress_index_register s).
Definition with_main_memory (a : list Z) (s : t) : t :=
  mk (v s) (pc s) (i s) a (sp s) (stack s) (timer_sound s)
     (timer_delay s) (fb s) (hexpad s) (is_waiting_for_keypress s)
     (keypress_index_register s).
Definition with_sp (a : Z) (s : t) : t :=
  mk (v s) (pc s) (i s) (main_memory s) a (stack s) (timer_sound s)
     (timer_delay s) (fb s) (hexpad s) (is_waiting_for_keypress s)
     (keypress_index_register s).
Definition with_stack (a : list Z) (s : t) : t :=
  mk (v s) (pc s) (i s) (main_memory s) (sp s) a (timer_sound s)
     (timer_delay s) (fb s) (hexpad s) (is_waiting_for_keypress s)
     (keypress_index_register s).
Definition with_timer_sound (a : Z) (s : t) : t :=
  mk (v s) (pc s) (i s) (main_memory s) (sp s) (stack s) a
     (timer_delay s) (fb s) (hexpad s) (is_waiting_for_keypress s)
     (keypress_index_register s).
Definition with_timer_delay (a : Z) (s : t) : t :=
  mk (v s) (pc s) (i s) (main_memory s) (sp s) (stack s) (timer_sound s)
     a (fb s) (hexpad s) (is_waiting_for_keypress s)
     (keypress_index_register s).
Definition with_fb (a : Framebuffer.t) (s : t) : t :=
  mk (v s) (pc s) (i s) (main_memory s) (sp s) (stack s) (timer_sound s)
     (timer_delay s) a (hexpad s) (is_waiting_for_keypress s)
     (keypress_index_register s).
Definition with_hexpad (a : Hexpad.t) (s : t) : t :=
  mk (v s) (pc s) (i s) (main_memory s) (sp s) (stack s) (timer_sound s)
     (timer_delay s) (fb s) a (is_waiting_for_keypress s)
     (keypress_index_register s).
Definition with_is_waiting_for_keypress (a : bool) (s : t) : t :=
  mk (v s) (pc s) (i s) (main_memory s) (sp s) (stack s) (timer_sound s)
     (timer_delay s) (fb s) (hexpad s) a (keypress_index_register s).
Definition with_keypress_index_register (a : Z) (s : t) : t :=
  mk (v s) (pc s) (i s) (main_memory s) (sp s) (stack s) (timer_sound s)
     (timer_delay s) (fb s) (hexpad s) (is_waiting_for_keypress s) a.

(** *** The monad of methods that may hit an assert *)

Definition M (A : Type) : Type := t → result (A * t).

Definition ret {A} (a : A) : M A := λ s, Ok (a, s).

Definition bind {A B} (m : M A) (k : A → M B) : M B :=
  λ s, match m s with
       | Ok (a, s') => k a s'
       | Abort f => Abort f
       end.

#[global] Instance M_ret : MRet M := @ret.
#[global] Instance M_bind : MBind M := λ A B k m, bind m k.

Definition abort {A} (f : fault) : M A := λ _, Abort f.
Definition gets {A} (f : t → A) : M A := λ s, Ok (f s, s).
Definition modify (f : t → t) : M unit := λ s, Ok (tt, f s).

(** [assert(b)] inside an accessor. *)
Definition assert (b : bool) : M unit :=
  if b then ret tt else abort index_out_of_range.

(** A call into a member object's method that may assert. *)
Definition lift {A} (r : result A) : M A :=
  λ s, match r with Ok a => Ok (a, s) | Abort f => Abort f end.

(** [for (uint32_t k = from; ...; ++k) acc = body(k, acc)], run for
    [count] iterations. *)
Fixpoint for_loop {A} (count : nat) (from : Z)
    (body : Z → A → M A) (acc : A) : M A :=
  match count with
  | O => ret acc
  | S count' => acc' ← body from acc; for_loop count' (from + 1) body acc'
  end.

(** *** Accessors *)

Definition reg_read (index : Z) : M Z :=
  assert (index <? 16);;
  gets (λ s, at_index (v s) index).

Definition reg_write (index value : Z) : M unit :=
  assert (index <? 16);;
  modify (λ s, with_v (<[Z.to_nat index := to_uint8 value]> (v s)) s).

Definition mem_read (address : Z) : M Z :=
  let address := to_uint16 address in
  assert (address <? 4096);;
  gets (λ s, at_index (main_memory s) address).

Definition mem_write (address value : Z) : M unit :=
  let address := to_uint16 address in
  assert (address <? 4096);;
  modify (λ s, with_main_memory
                 (<[Z.to_nat address := to_uint8 value]> (main_memory s)) s).

Definition vf_get : M bool := gets (λ s, negb (at_index (v s) 15 =? 0)).

Definition vf_set (value : bool) : M unit :=
  modify (λ s, with_v (<[15%nat := of_bool value]> (v s)) s).

Definition i_get : M Z := gets i.

Definition i_set (value : Z) : M unit :=
  modify (with_i (Z.land (to_uint16 value) 0x0fff)).

Definition pc_get : M Z := gets pc.

Definition pc_set (value : Z) : M unit :=
  modify (with_pc (Z.land (to_uint16 value) 0x0fff)).

Definition fetch : M Z :=
  pc ← pc_get;
  pc_set (pc + 1);;
  mem_read pc.

Definition skip_instr : M unit :=
  pc ← pc_get;
  pc_set (pc + 2).

(** [this->stack[sp++] = this->pc;] *)
Definition stack_push : M unit :=
  sp0 ← gets sp;
  assert (sp0 <? STACK_SIZE);;
  modify (λ s, with_sp (sp0 + 1)
                 (with_stack (<[Z.to_nat sp0 := pc s]> (stack s)) s)).

(** [this->stack[--sp] = this->pc;] *)
Definition stack_pop : M unit :=
  sp0 ← gets sp;
  assert (0 <? sp0);;
  modify (λ s, with_sp (sp0 - 1)
                 (with_stack (<[Z.to_nat (sp0 - 1) := pc s]> (stack s)) s)).

(** Calls into the framebuffer and the hexpad owned by the core. *)
Definition fb_clear : M unit :=
  modify (λ s, with_fb (Framebuffer.clear (fb s)) s).

Definition fb_pixel_status (x y : Z) : M bool :=
  f ← gets fb; lift (Framebuffer.pixel_status f x y).

Definition fb_set_pixel (x y : Z) (status : bool) : M unit :=
  f ← gets fb;
  f' ← lift (Framebuffer.set_pixel f x y status);
  modify (with_fb f').

Definition hexpad_is_key_pressed (index : Z) : M bool :=
  h ← gets hexpad; lift (Hexpad.is_key_pressed h index).

(** *** Core::create *)

Definition create (rom : list Z) : result t :=
  let rom_length := Z.of_nat (length rom) in
  let load : M unit :=
    (if 4096 - 512 <? rom_length then abort rom_too_large else ret tt);;
    for_loop (length rom) 0
      (λ k _, mem_write (k + 512) (at_index rom k)) tt;;
    for_loop (length FONT_DATA) 0
      (λ k _, mem_write k (at_index FONT_DATA k)) tt;;
    modify (with_pc 0x200) in
  match load zero_init with
  | Ok (_, core) => Ok core
  | Abort f => Abort f
  end.

(** *** Core::tick_timers *)

Definition tick_timers (s : t) : t :=
  let s1 :=
    with_timer_delay
      (if 0 <? timer_delay s then to_uint8 (timer_delay s - 1)
       else timer_delay s) s in
  with_timer_sound
    (if 0 <? timer_sound s1 then to_uint8 (timer_sound s1 - 1)
     else timer_sound s1) s1.

(** *** Core::update_hexpad_bitmap and Core::update_hexpad *)

(** [std::log2(diff)] converted to [uint8_t]: the conversion drops
    the fraction, and for an integer [1 <= diff <= 65535] the floor
    of the binary logarithm is [Z.log2 diff] (powers of two are
    exact in [double], and no other integer below 65536 has a
    logarithm within 2e-5 of the next integer). *)
Definition log2_to_uint8 (diff : Z) : Z := to_uint8 (Z.log2 diff).

Definition update_hexpad_bitmap (bitmap : Z) : M unit :=
  let bitmap := to_uint16 bitmap in
  old_bitmap ← gets (λ s, Hexpad.bitmap (hexpad s));
  let diff := Z.land (Z.lxor bitmap old_bitmap) bitmap in
  waiting ← gets is_waiting_for_keypress;
  (if waiting && negb (diff =? 0) then
     modify (with_is_waiting_for_keypress false);;
     let log2 := log2_to_uint8 diff in
     index ← gets keypress_index_register;
     reg_write index log2
   else ret tt);;
  modify (λ s, with_hexpad (Hexpad.update_hexpad (hexpad s) bitmap) s).

(** [hexpad[k] << k] for the [k]th entry of the array of bools. *)
Definition key_bit (hexpad : list bool) (k : nat) : Z :=
  Z.shiftl (of_bool (nth k hexpad false)) (Z.of_nat k).

Definition update_hexpad (hexpad : list bool) : M unit :=
  let bit := key_bit hexpad in
  let bitmap :=
    Z.lor (Z.lor (Z.lor (Z.lor (Z.lor (Z.lor (Z.lor (Z.lor
    (Z.lor (Z.lor (Z.lor (Z.lor (Z.lor (Z.lor (Z.lor
      (bit 0%nat) (bit 1%nat)) (bit 2%nat)) (bit 3%nat)) (bit 4%nat))
      (bit 5%nat)) (bit 6%nat)) (bit 7%nat)) (bit 8%nat)) (bit 9%nat))
      (bit 10%nat)) (bit 11%nat)) (bit 12%nat)) (bit 13%nat))
      (bit 14%nat)) (bit 15%nat) in
  update_hexpad_bitmap bitmap.

(** *** Core::run_for_instruction *)

(** The [switch] of [run_for_instruction], over the values decoded
    from the instruction word.  [rnd] is what [std::rand()] returns
    if this instruction calls it. *)
Definition execute (rnd instruction nnn nn n x y vx vy v0 i pc : Z)
    (key_pressed : bool) (in000 i000n i00nn : Z) : M unit :=
  let invalid_instr : M unit :=
    abort (invalid_instruction (pc - 2) instruction) in
  if instruction =? 0x00e0 then fb_clear
  else if instruction =? 0x00ee then stack_pop
  else
    match in000 with
    | 0 => invalid_instr
    | 1 => pc_set nnn
    | 2 => stack_push;; pc_set nnn
    | 3 => if vx =? nn then skip_instr else ret tt
    | 4 => if negb (vx =? nn) then skip_instr else ret tt
    | 5 => if vx =? vy then skip_instr else ret tt
    | 6 => reg_write x nn
    | 7 => reg_write x (vx + nn)
    | 8 =>
        match i000n with
        | 0 => reg_write x vy
        | 1 => reg_write x (Z.lor vx vy)
        | 2 => reg_write x (Z.land vx vy)
        | 3 => reg_write x (Z.lxor vx vy)
        | 4 =>
            let res := to_uint32 (vx + vy) in
            let carry := 255 <? res in
            reg_write x res;;
            vf_set carry
        | 5 =>
            let res := to_uint32 (vx - vy) in
            let no_borrow := res <? 0 in
            reg_write x res;;
            vf_set no_borrow
        | 6 =>
            let lsb := negb (Z.land vx 1 =? 0) in
            reg_write x (Z.shiftr vx 1);;
            vf_set lsb
        | 7 =>
            let res := to_uint32 (vy - vx) in
            let no_borrow := res <? 0 in
            reg_write x res;;
            vf_set no_borrow
        | 0xe =>
            let msb := negb (Z.shiftr vx 7 =? 0) in
            reg_write x (Z.shiftl vx 1);;
            vf_set msb
        | _ => invalid_instr
        end
    | 9 => if negb (vx =? vy) then skip_instr else ret tt
    | 0xa => i_set nnn
    | 0xb => pc_set (v0 + nnn)
    | 0xc => reg_write x (Z.land rnd nn)
    | 0xd =>
        collision ←
          for_loop (Z.to_nat n) 0 (λ h collision,
            row ← mem_read (i + h);
            for_loop (Z.to_nat n) 0 (λ w collision,
              let xp := to_uint32 ((vx + w) mod Framebuffer.FB_WIDTH) in
              let yp := to_uint32 ((vy + h) mod Framebuffer.FB_HEIGHT) in
              let new_pixel := negb (Z.land row (Z.shiftl 1 w) =? 0) in
              old_pixel ← fb_pixel_status xp yp;
              let collision := collision || negb (eqb old_pixel new_pixel) in
              fb_set_pixel x y true;;
              ret collision) collision) false;
        vf_set collision
    | 0xe =>
        match i00nn with
        | 0x9e => if key_pressed then skip_instr else ret tt
        | 0xa1 => if negb key_pressed then skip_instr else ret tt
        | _ => invalid_instr
        end
    | 0xf =>
        match i00nn with
        | 0x07 => td ← gets timer_delay; reg_write x td
        | 0x0a =>
            modify (with_is_waiting_for_keypress true);;
            modify (with_keypress_index_register x)
        | 0x15 => modify (with_timer_delay vx)
        | 0x18 => modify (with_timer_sound vx)
        | 0x1e => i_set (i + vx)
        | 0x29 => i_set (vx * 5)
        | 0x33 =>
            let d0 := to_uint8 (vx mod 10) in
            let d1 := to_uint8 ((vx / 10) mod 10) in
            let d2 := to_uint8 ((vx / 100) mod 10) in
            mem_write i d2;;
            mem_write (i + 1) d1;;
            mem_write (i + 2) d0
        | 0x55 =>
            for_loop (Z.to_nat (x + 1)) 0 (λ j _,
              vj ← reg_read j; mem_write (i + j) vj) tt
        | 0x65 =>
            for_loop (Z.to_nat (x + 1)) 0 (λ j _,
              mj ← mem_read (i + j); reg_write j mj) tt
        | _ => invalid_instr
        end
    | _ => abort unreachable_code
    end.

(** The instruction word built from the two fetched bytes. *)
Definition instruction_word (instruction_hi instruction_lo : Z) : Z :=
  to_uint16 (Z.lor (Z.shiftl instruction_hi 8) instruction_lo).

(** The locals computed from the instruction word before the
    [switch], then the [switch]. *)
Definition decode (rnd instruction : Z) : M unit :=
  let nnn := Z.land instruction 0x0fff in
  let nn := Z.land instruction 0x00ff in
  let n := Z.land instruction 0x000f in
  let x := Z.land (Z.shiftr instruction 8) 0xf in
  let y := Z.land (Z.shiftr instruction 4) 0xf in
  vx ← reg_read x;
  vy ← reg_read y;
  v0 ← reg_read 0;
  i ← i_get;
  pc ← pc_get;
  key_pressed ← hexpad_is_key_pressed (Z.land vx 0xf);
  let in000 := to_uint8 (Z.shiftr instruction 12) in
  let i000n := to_uint8 (Z.land instruction 0x000f) in
  let i00nn := to_uint8 (Z.land instruction 0x00ff) in
  execute rnd instruction nnn nn n x y vx vy v0 i pc key_pressed
          in000 i000n i00nn.

Definition run_for_instruction (rnd : Z) : M unit :=
  gets is_waiting_for_keypress ≫= λ waiting : bool,
  if waiting then ret tt
  else
    instruction_hi ← fetch;
    instruction_lo ← fetch;
    decode rnd (instruction_word instruction_hi instruction_lo).

(** [while (instructions--) run_for_instruction();]  [rand k] is the
    value [std::rand()] would return in the iteration that has [k]
    iterations after it. *)
Fixpoint run_for_instructions (rand : nat → Z) (instructions : nat) : M unit :=
  match instructions with
  | O => ret tt
  | S instructions' =>
      run_for_instruction (rand instructions');;
      run_for_instructions rand instructions'
  end.

Definition run_for_instructions_then_tick_timers
    (rand : nat → Z) (instructions : nat) : M unit :=
  run_for_instructions rand instructions;;
  modify tick_timers.

Definition framebuffer (s : t) : Framebuffer.t := fb s.

End Core.

(** Running a method and keeping only the state it leaves. *)
Definition exec {A} (m : Core.M A) (s : Core.t) : result Core.t :=
  match m s with
  | Ok (_, s') => Ok s'
  | Abort f => Abort f
  end.

(** A sequence of instructions from a start state, with [std::rand()]
    returning 0 throughout; used to build concrete states. *)
Definition steps (k : nat) (s : Core.t) : result Core.t :=
  exec (Core.run_for_instructions (λ _, 0) k) s.

Definition boot (rom : list Z) (k : nat) : result Core.t :=
  match Core.create rom with
  | Ok s => steps k s
  | Abort f => Abort f
  end.

(** The state held by a result, for building concrete states. *)
Definition state_of (r : result Core.t) : Core.t :=
  match r with
  | Ok s => s
  | Abort _ => Core.zero_init
  end.

(** ** The representation invariant *)

Definition uint8 (z : Z) : Prop := 0 ≤ z < 256.

#[global] Instance uint8_dec z : Decision (uint8 z).
Proof. unfold uint8. apply _. Defined.

(** Every field holds a value of its C++ type, the arrays have their
    declared sizes, the two 12-bit registers fit in 12 bits and the
    stack pointer is within the stack. *)
Definition wf (s : Core.t) : Prop :=
  length (Core.v s) = 16%nat ∧
  Forall uint8 (Core.v s) ∧
  0 ≤ Core.pc s < 4096 ∧
  0 ≤ Core.i s < 4096 ∧
  length (Core.main_memory s) = 4096%nat ∧
  Forall uint8 (Core.main_memory s) ∧
  0 ≤ Core.sp s ≤ Core.STACK_SIZE ∧
  length (Core.stack s) = 16%nat ∧
  uint8 (Core.timer_sound s) ∧
  uint8 (Core.timer_delay s) ∧
  length (Framebuffer.pixel_array (Core.fb s)) = 3600%nat ∧
  0 ≤ Hexpad.hexpad_bitmap (Core.hexpad s) < 65536 ∧
  0 ≤ Core.keypress_index_register s < 16.

#[global] Instance wf_dec s : Decision (wf s).
Proof. unfold wf. apply _. Defined.

(** ** States reachable through the public entry points *)

Inductive reachable : Core.t → Prop :=
| reachable_create rom s :
    Core.create rom = Ok s → reachable s
| reachable_step rnd s s' :
    reachable s → Core.run_for_instruction rnd s = Ok (tt, s') → reachable s'
| reachable_tick s :
    reachable s → reachable (Core.tick_timers s)
| reachable_keypad hexpad s s' :
    reachable s → Core.update_hexpad hexpad s = Ok (tt, s') → reachable s'.

(** ** Definitions that follow the specification's words *)

(** The instruction words the decoder knows: clear-screen and return
    match on the full word; the other families are selected by the top
    nibble, with the low nibble selecting inside the arithmetic/shift
    group and the low byte inside the key-test and misc groups (the
    selecting values are those of the instruction set: 8XY0 to 8XY7
    and 8XYE, EX9E and EXA1, FX07 to FX65). *)
Definition known_opcode (w : Z) : bool :=
  let top := Z.shiftr w 12 in
  let low_nibble := Z.land w 0xf in
  let low_byte := Z.land w 0xff in
  (w =? 0x00E0) || (w =? 0x00EE) ||
  ((1 <=? top) && (top <=? 7)) ||
  ((top =? 8) && ((low_nibble <=? 7) || (low_nibble =? 0xE))) ||
  ((9 <=? top) && (top <=? 0xD)) ||
  ((top =? 0xE) && ((low_byte =? 0x9E) || (low_byte =? 0xA1))) ||
  ((top =? 0xF) &&
   ((low_byte =? 0x07) || (low_byte =? 0x0A) || (low_byte =? 0x15) ||
    (low_byte =? 0x18) || (low_byte =? 0x1E) || (low_byte =? 0x29) ||
    (low_byte =? 0x33) || (low_byte =? 0x55) || (low_byte =? 0x65))).

(** The index of the lowest set bit of a positive number. *)
Fixpoint lowest_set_bit_pos (p : positive) : Z :=
  match p with
  | xO p' => 1 + lowest_set_bit_pos p'
  | _ => 0
  end.

Definition lowest_set_bit (d : Z) : Z :=
  match d with
  | Zpos p => lowest_set_bit_pos p
  | _ => 0
  end.

(** Every framebuffer pixel reads as off. *)
Definition all_pixels_off (fb : Framebuffer.t) : Prop :=
  ∀ x y, 0 ≤ x < Framebuffer.FB_WIDTH → 0 ≤ y < Framebuffer.FB_HEIGHT →
         Framebuffer.pixel_status fb x y = Ok false.

(** ** Observations on a state *)

(** The value of register [r], when [r] is a register index. *)
Definition reg (s : Core.t) (r : Z) : option Z := Core.v s !! Z.to_nat r.

(** The state the program counter is left in by one [fetch]. *)
Definition next_pc (p : Z) : Z := Z.land (to_uint16 (p + 1)) 0x0fff.

(** The instruction word at the program counter. *)
Definition fetched_instruction (s : Core.t) : Z :=
  Core.instruction_word
    (at_index (Core.main_memory s) (Core.pc s))
    (at_index (Core.main_memory s) (next_pc (Core.pc s))).

(** Whether the key selected by the low nibble of [vx] is down. *)
Definition key_down (s : Core.t) (vx : Z) : bool :=
  negb (Z.land (Hexpad.hexpad_bitmap (Core.hexpad s))
               (Z.shiftl 1 (Z.land vx 0xf)) =? 0).

(** The wait is resolved by a keypad update that writes [pick] of the
    newly set bits into the register named by the wait. *)
Definition wait_resolution (pick : Z → Z) (s : Core.t) (bitmap : Z) : Prop :=
  let newly := Z.land bitmap (Z.lnot (Hexpad.bitmap (Core.hexpad s))) in
  ∃ s', Core.update_hexpad_bitmap bitmap s = Ok (tt, s') ∧
        Core.is_waiting_for_keypress s' = false ∧
        reg s' (Core.keypress_index_register s) = Some (pick newly) ∧
        Hexpad.bitmap (Core.hexpad s') = bitmap.

(** [preserves P m]: when [m] returns, it has kept [P]. *)
Definition preserves {A} (P : Core.t → Prop) (m : Core.M A) : Prop :=
  ∀ s a s', P s → m s = Ok (a, s') → P s'.

(** ** Concrete machines *)

(** A machine that has executed FX0A with x = 3 and waits for a key. *)
Definition waiting_machine : Core.t := state_of (boot [0xF3; 0x0A] 1).

(** A machine that has loaded V0 := 0xFF, I := 0xFFF and added V0 to I. *)
Definition index_machine : Core.t :=
  state_of (boot [0x60; 0xFF; 0xAF; 0xFF; 0xF0; 0x1E] 3).

(** A machine whose delay timer is 5 and whose sound timer is 0. *)
Definition timer_machine : Core.t :=
  state_of (boot [0x60; 0x05; 0xF0; 0x15] 2).

(** A machine whose first instruction word is 0x0123. *)
Definition machine_code_call_machine : Core.t :=
  state_of (Core.create [0x01; 0x23]).

(** A machine whose first instruction word is 0x00E0. *)
Definition clear_screen_machine : Core.t :=
  state_of (Core.create [0x00; 0xE0]).

(** ** Fields of an instruction word *)

Definition op_top (w : Z) : Z := Z.shiftr w 12.
Definition op_x (w : Z) : Z := Z.land (Z.shiftr w 8) 0xf.
Definition op_y (w : Z) : Z := Z.land (Z.shiftr w 4) 0xf.
Definition op_nnn (w : Z) : Z := Z.land w 0x0fff.
Definition op_nn (w : Z) : Z := Z.land w 0x00ff.
Definition op_n (w : Z) : Z := Z.land w 0x000f.

(** The state once the two bytes of the instruction are fetched. *)
Definition after_fetch (s : Core.t) : Core.t :=
  Core.with_pc (next_pc (next_pc (Core.pc s))) s.

(** The byte in register [r], and the state with register [r] set. *)
Definition V (s : Core.t) (r : Z) : Z := at_index (Core.v s) r.

Definition set_reg (r val : Z) (s : Core.t) : Core.t :=
  Core.with_v (<[Z.to_nat r := val]> (Core.v s)) s.

(** The byte at a memory address. *)
Definition mem (s : Core.t) (a : Z) : Z := at_index (Core.main_memory s) a.

(** [count] timer ticks in a row. *)
Fixpoint ticks (count : nat) (s : Core.t) : Core.t :=
  match count with
  | O => s
  | S count' => ticks count' (Core.tick_timers s)
  end.

(** A machine whose program calls its own address: after sixteen steps
    the stack is full. *)
Definition full_stack_machine : Core.t := state_of (boot [0x22; 0x00] 16).

(** A machine with V0 = 250, V1 = 10, I = 0x300, about to run what is
    stored from 0x208 on. *)
Definition loaded_machine (tail : list Z) : Core.t :=
  state_of (boot ([0x60; 250; 0x61; 10; 0xA3; 0x00; 0x00; 0xE0] ++ tail) 4).

(** ** Reasoning about the monad *)

Section Preserves.
Context (P : Core.t → Prop).

Lemma preserves_ret {A} (a : A) : preserves P (Core.ret a).
Proof. intros s b s' HP [= _ <-]. exact HP. Qed.

Lemma preserves_abort {A} f : preserves P (@Core.abort A f).
Proof. intros s b s' _ [=]. Qed.

Lemma preserves_gets {A} (f : Core.t → A) : preserves P (Core.gets f).
Proof. intros s b s' HP [= _ <-]. exact HP. Qed.

Lemma preserves_assert b : preserves P (Core.assert b).
Proof. destruct b; [apply preserves_ret | apply preserves_abort]. Qed.

Lemma preserves_lift {A} (r : result A) : preserves P (Core.lift r).
Proof.
  intros s b s' HP. unfold Core.lift.
  destruct r; [intros [= _ <-] | intros [=]]. exact HP.
Qed.

Lemma preserves_modify f :
  (∀ s, P s → P (f s)) → preserves P (Core.modify f).
Proof. intros Hf s b s' HP [= _ <-]. auto. Qed.

Lemma preserves_bind {A B} (m : Core.M A) (k : A → Core.M B) :
  preserves P m → (∀ a, preserves P (k a)) → preserves P (m ≫= k).
Proof.
  intros Hm Hk s b s' HP. unfold mbind, Core.M_bind, Core.bind.
  destruct (m s) as [[a s1]|f] eqn:E; [|intros [=]].
  intros H. exact (Hk a s1 b s' (Hm s a s1 HP E) H).
Qed.

Lemma preserves_for_loop {A} count (body : Z → A → Core.M A) :
  (∀ k acc, preserves P (body k acc)) →
  ∀ from acc, preserves P (Core.for_loop count from body acc).
Proof.
  intros Hbody. induction count as [|count IH]; intros from acc; simpl.
  - apply preserves_ret.
  - apply preserves_bind; [apply Hbody | intros acc'; apply IH].
Qed.
End Preserves.

(** A bind that returns: both halves returned. *)
Lemma bind_Ok {A B} (m : Core.M A) (k : A → Core.M B) s b s' :
  (m ≫= k) s = Ok (b, s') →
  ∃ a s1, m s = Ok (a, s1) ∧ k a s1 = Ok (b, s').
Proof.
  unfold mbind, Core.M_bind, Core.bind.
  destruct (m s) as [[a s1]|f]; [eauto | intros [=]].
Qed.

Lemma bind_eq {A B} (m : Core.M A) (k : A → Core.M B) s a s1 :
  m s = Ok (a, s1) → (m ≫= k) s = k a s1.
Proof. intros H. unfold mbind, Core.M_bind, Core.bind. by rewrite H. Qed.

(** Inversion of the primitive computations. *)
Lemma ret_Ok {A} (a b : A) s s' : Core.ret a s = Ok (b, s') → b = a ∧ s' = s.
Proof. by intros [= <- <-]. Qed.

Lemma gets_Ok {A} (f : Core.t → A) a s s' :
  Core.gets f s = Ok (a, s') → a = f s ∧ s' = s.
Proof. by intros [= <- <-]. Qed.

Lemma modify_Ok f a s s' : Core.modify f s = Ok (a, s') → s' = f s.
Proof. by intros [= _ <-]. Qed.

Lemma assert_Ok b a s s' : Core.assert b s = Ok (a, s') → b = true ∧ s' = s.
Proof. destruct b; [by intros [= _ <-] | intros [=]]. Qed.

Lemma lift_Ok {A} (r : result A) a s s' :
  Core.lift r s = Ok (a, s') → r = Ok a ∧ s' = s.
Proof. unfold Core.lift. destruct r; [by intros [= <- <-] | intros [=]]. Qed.

(** Takes a hypothesis [m s = Ok (a, s')] apart along the binds of [m]. *)
Ltac monad_inv H :=
  lazymatch type of H with
  | (_ ≫= _) _ = Ok _ =>
      let a := fresh "a" in
      let s1 := fresh "s" in
      let H1 := fresh "H" in
      let H2 := fresh "H" in
      apply bind_Ok in H; destruct H as (a & s1 & H1 & H2);
      monad_inv H1; monad_inv H2
  | Core.ret _ _ = Ok _ =>
      apply ret_Ok in H; destruct H as [-> ->]
  | Core.gets _ _ = Ok _ =>
      apply gets_Ok in H; destruct H as [-> ->]
  | Core.modify _ _ = Ok _ =>
      apply modify_Ok in H; subst
  | Core.assert _ _ = Ok _ =>
      let Hb := fresh "Hassert" in
      apply assert_Ok in H; destruct H as [Hb ->]
  | Core.lift _ _ = Ok _ =>
      let Hr := fresh "Hlift" in
      apply lift_Ok in H; destruct H as [Hr ->]
  | _ => idtac
  end.

(** ** Ranges of the converted values *)

Lemma to_uint8_range z : uint8 (to_uint8 z).
Proof. unfold uint8, to_uint8. apply Z.mod_pos_bound. lia. Qed.

Lemma of_bool_range b : uint8 (of_bool b).
Proof. unfold uint8. destruct b; simpl; lia. Qed.

Lemma land_12_range z : 0 ≤ Z.land z 0x0fff < 4096.
Proof.
  change 0x0fff with (Z.ones 12). rewrite Z.land_ones by lia.
  apply Z.mod_pos_bound. lia.
Qed.

Lemma land_4_range z : 0 ≤ Z.land z 0xf < 16.
Proof.
  change 0xf with (Z.ones 4). rewrite Z.land_ones by lia.
  apply Z.mod_pos_bound. lia.
Qed.

Lemma to_uint16_range z : 0 ≤ to_uint16 z < 65536.
Proof. unfold to_uint16. apply Z.mod_pos_bound. lia. Qed.

Lemma to_uint16_small z : 0 ≤ z < 65536 → to_uint16 z = z.
Proof. intros. unfold to_uint16. apply Z.mod_small. lia. Qed.

Lemma next_pc_range p : 0 ≤ next_pc p < 4096.
Proof. apply land_12_range. Qed.

Lemma at_index_range l k : Forall uint8 l → uint8 (at_index l k).
Proof.
  intros Hl. unfold at_index.
  destruct (l !! Z.to_nat k) as [b|] eqn:E; simpl.
  - exact (Forall_lookup_1 _ _ _ _ Hl E).
  - unfold uint8. lia.
Qed.

(** ** The accessors keep the invariant *)

Ltac wf_split H :=
  destruct H as (Hvl & Hv & Hpc & Hi & Hml & Hm & Hsp & Hsl & Hts & Htd &
                 Hfl & Hhp & Hkir).

Ltac wf_solve :=
  lazymatch goal with
  | H : wf _ |- wf _ =>
      wf_split H; unfold wf, Core.STACK_SIZE in *; simpl;
      rewrite ?length_insert;
      repeat match goal with |- _ ∧ _ => split end;
      try assumption;
      try (apply Forall_insert; [assumption|]);
      auto using to_uint8_range, of_bool_range;
      try apply land_12_range;
      unfold uint8 in *;
      try lia
  end.

Create HintDb chip8.

Lemma reg_read_wf index : preserves wf (Core.reg_read index).
Proof. intros s a s' Hwf H. unfold Core.reg_read in H. monad_inv H. done. Qed.

Lemma reg_write_wf index value : preserves wf (Core.reg_write index value).
Proof. intros s a s' Hwf H. unfold Core.reg_write in H. monad_inv H. wf_solve. Qed.

Lemma mem_read_wf address : preserves wf (Core.mem_read address).
Proof. intros s a s' Hwf H. unfold Core.mem_read in H. monad_inv H. done. Qed.

Lemma mem_write_wf address value : preserves wf (Core.mem_write address value).
Proof. intros s a s' Hwf H. unfold Core.mem_write in H. monad_inv H. wf_solve. Qed.

Lemma vf_set_wf value : preserves wf (Core.vf_set value).
Proof. intros s a s' Hwf H. unfold Core.vf_set in H. monad_inv H. wf_solve. Qed.

Lemma i_set_wf value : preserves wf (Core.i_set value).
Proof. intros s a s' Hwf H. unfold Core.i_set in H. monad_inv H. wf_solve. Qed.

Lemma pc_set_wf value : preserves wf (Core.pc_set value).
Proof. intros s a s' Hwf H. unfold Core.pc_set in H. monad_inv H. wf_solve. Qed.

Lemma i_get_wf : preserves wf Core.i_get.
Proof. apply preserves_gets. Qed.

Lemma pc_get_wf : preserves wf Core.pc_get.
Proof. apply preserves_gets. Qed.

Lemma skip_instr_wf : preserves wf Core.skip_instr.
Proof.
  apply preserves_bind; [apply pc_get_wf | intros; apply pc_set_wf].
Qed.

Lemma fetch_wf : preserves wf Core.fetch.
Proof.
  apply preserves_bind; [apply pc_get_wf | intros p].
  apply preserves_bind; [apply pc_set_wf | intros; apply mem_read_wf].
Qed.

Lemma stack_push_wf : preserves wf Core.stack_push.
Proof.
  intros s a s' Hwf H. unfold Core.stack_push in H. monad_inv H.
  apply Z.ltb_lt in Hassert. wf_solve.
Qed.

Lemma stack_pop_wf : preserves wf Core.stack_pop.
Proof.
  intros s a s' Hwf H. unfold Core.stack_pop in H. monad_inv H.
  apply Z.ltb_lt in Hassert. wf_solve.
Qed.

Lemma fb_clear_wf : preserves wf Core.fb_clear.
Proof. intros s a s' Hwf H. unfold Core.fb_clear in H. monad_inv H. wf_solve. Qed.

Lemma fb_pixel_status_wf x y : preserves wf (Core.fb_pixel_status x y).
Proof. intros s a s' Hwf H. unfold Core.fb_pixel_status in H. monad_inv H. done. Qed.

Lemma fb_set_pixel_wf x y status : preserves wf (Core.fb_set_pixel x y status).
Proof.
  intros s a s' Hwf H. unfold Core.fb_set_pixel in H. monad_inv H.
  unfold Framebuffer.set_pixel in Hlift.
  destruct ((x <? _) && _); [|done]. injection Hlift as <-. wf_solve.
Qed.

Lemma hexpad_is_key_pressed_wf index :
  preserves wf (Core.hexpad_is_key_pressed index).
Proof.
  intros s a s' Hwf H. unfold Core.hexpad_is_key_pressed in H. monad_inv H. done.
Qed.

#[global] Hint Resolve reg_read_wf reg_write_wf mem_read_wf mem_write_wf
  vf_set_wf i_set_wf pc_set_wf i_get_wf pc_get_wf skip_instr_wf fetch_wf
  stack_push_wf stack_pop_wf fb_clear_wf fb_pixel_status_wf fb_set_pixel_wf
  hexpad_is_key_pressed_wf : chip8.
#[global] Hint Resolve preserves_ret preserves_abort preserves_gets
  preserves_assert preserves_lift : chip8.

(** Walks through a computation built from binds, loops, branches and
    the accessors above. *)
Ltac preserves_tac :=
  repeat lazymatch goal with
  | |- preserves _ (_ ≫= _) => apply preserves_bind; [| intros ?]
  | |- preserves _ (Core.for_loop _ _ _ _) =>
      apply preserves_for_loop; intros ? ?
  | |- preserves _ (if ?b then _ else _) => destruct b
  | |- preserves wf (Core.modify _) =>
      apply preserves_modify; intros ? ?; wf_solve
  | |- preserves _ _ => solve [eauto with chip8]
  end.

(** ** Every entry point keeps the invariant *)

Lemma execute_wf rnd instruction nnn nn n x y vx vy v0 i pc key_pressed
    in000 i000n i00nn :
  uint8 vx → 0 ≤ x < 16 →
  preserves wf (Core.execute rnd instruction nnn nn n x y vx vy v0 i pc
                  key_pressed in000 i000n i00nn).
Proof.
  intros Hvx Hx. unfold Core.execute.
  repeat case_match; preserves_tac.
Qed.

Lemma decode_wf rnd instruction : preserves wf (Core.decode rnd instruction).
Proof.
  intros s a s' Hwf H.
  unfold Core.decode, Core.reg_read, Core.i_get, Core.pc_get,
    Core.hexpad_is_key_pressed in H.
  monad_inv H.
  eapply execute_wf; [| | exact Hwf | eassumption].
  - apply at_index_range. by wf_split Hwf.
  - apply land_4_range.
Qed.

Lemma run_for_instruction_wf rnd : preserves wf (Core.run_for_instruction rnd).
Proof.
  unfold Core.run_for_instruction.
  apply preserves_bind; [apply preserves_gets | intros waiting].
  destruct waiting; [apply preserves_ret |].
  apply preserves_bind; [apply fetch_wf | intros hi].
  apply preserves_bind; [apply fetch_wf | intros lo].
  apply decode_wf.
Qed.

Lemma run_for_instructions_wf rand instructions :
  preserves wf (Core.run_for_instructions rand instructions).
Proof.
  induction instructions as [|k IH]; simpl.
  - apply preserves_ret.
  - apply preserves_bind; [apply run_for_instruction_wf | intros; apply IH].
Qed.

Lemma tick_timers_wf s : wf s → wf (Core.tick_timers s).
Proof.
  intros Hwf. unfold Core.tick_timers.
  pose proof (to_uint8_range (Core.timer_delay s - 1)).
  pose proof (to_uint8_range (Core.timer_sound s - 1)).
  repeat case_match; wf_solve.
Qed.

Lemma update_hexpad_bitmap_wf bitmap :
  preserves wf (Core.update_hexpad_bitmap bitmap).
Proof.
  unfold Core.update_hexpad_bitmap.
  preserves_tac; apply to_uint16_range.
Qed.

Lemma update_hexpad_wf hexpad : preserves wf (Core.update_hexpad hexpad).
Proof. apply update_hexpad_bitmap_wf. Qed.

Lemma zero_init_wf : wf Core.zero_init.
Proof. apply (bool_decide_unpack _). by vm_compute. Qed.

Lemma create_wf rom s : Core.create rom = Ok s → wf s.
Proof.
  unfold Core.create.
  match goal with |- context [?m Core.zero_init] => set (load := m) end.
  destruct (load Core.zero_init) as [[u s1]|f] eqn:E; [|done].
  intros [= <-].
  assert (preserves wf load) as Hload by (subst load; preserves_tac).
  exact (Hload _ _ _ zero_init_wf E).
Qed.

Lemma steps_wf k s s' : wf s → steps k s = Ok s' → wf s'.
Proof.
  unfold steps, exec. intros Hwf.
  destruct (Core.run_for_instructions _ k s) as [[u s1]|f] eqn:E; [|done].
  intros [= <-]. exact (run_for_instructions_wf _ _ _ _ _ Hwf E).
Qed.

Lemma boot_wf rom k s : boot rom k = Ok s → wf s.
Proof.
  unfold boot. destruct (Core.create rom) as [s0|f] eqn:E; [|done].
  apply steps_wf. by apply (create_wf rom).
Qed.

(** Every reachable state satisfies the representation invariant. *)
Lemma reachable_wf s : reachable s → wf s.
Proof.
  induction 1 as [rom s Hc | rnd s s' _ IH Hs | s _ IH | hexpad s s' _ IH Hu].
  - by apply create_wf in Hc.
  - exact (run_for_instruction_wf _ _ _ _ IH Hs).
  - by apply tick_timers_wf.
  - exact (update_hexpad_wf _ _ _ _ IH Hu).
Qed.

(** ** What one instruction computes *)

(** Unfolds the monad so that a computation applied to a state reduces. *)
Ltac run_monad :=
  cbv [mbind Core.M_bind Core.bind Core.gets Core.modify Core.ret Core.lift
       Core.abort Core.assert].

Lemma fetch_eq s :
  0 ≤ Core.pc s < 4096 →
  Core.fetch s =
    Ok (at_index (Core.main_memory s) (Core.pc s),
        Core.with_pc (next_pc (Core.pc s)) s).
Proof.
  intros Hpc. unfold Core.fetch, Core.pc_get, Core.pc_set, Core.mem_read.
  run_monad. cbv beta iota zeta. simpl Core.pc. simpl Core.main_memory.
  rewrite to_uint16_small by lia.
  replace (Core.pc s <? 4096) with true by (symmetry; apply Z.ltb_lt; lia).
  reflexivity.
Qed.

Lemma decode_eq rnd instruction s :
  Core.decode rnd instruction s =
    let x := Z.land (Z.shiftr instruction 8) 0xf in
    let y := Z.land (Z.shiftr instruction 4) 0xf in
    let vx := at_index (Core.v s) x in
    Core.execute rnd instruction
      (Z.land instruction 0x0fff) (Z.land instruction 0x00ff)
      (Z.land instruction 0x000f) x y
      vx (at_index (Core.v s) y) (at_index (Core.v s) 0)
      (Core.i s) (Core.pc s) (key_down s vx)
      (to_uint8 (Z.shiftr instruction 12))
      (to_uint8 (Z.land instruction 0x000f))
      (to_uint8 (Z.land instruction 0x00ff)) s.
Proof.
  unfold Core.decode, Core.reg_read, Core.i_get, Core.pc_get,
    Core.hexpad_is_key_pressed, Hexpad.is_key_pressed.
  pose proof (land_4_range (Z.shiftr instruction 8)) as Hx.
  pose proof (land_4_range (Z.shiftr instruction 4)) as Hy.
  pose proof (land_4_range
                (at_index (Core.v s) (Z.land (Z.shiftr instruction 8) 0xf))) as Hk.
  assert (∀ z, 0 ≤ z < 16 → (z <? 16) = true) as Hltb
    by (intros; apply Z.ltb_lt; lia).
  apply Hltb in Hx, Hy, Hk.
  run_monad. rewrite Hx, Hy. cbv beta iota. rewrite Hk. reflexivity.
Qed.

Lemma run_for_instruction_running rnd s :
  wf s → Core.is_waiting_for_keypress s = false →
  Core.run_for_instruction rnd s =
    Core.decode rnd (fetched_instruction s)
      (Core.with_pc (next_pc (next_pc (Core.pc s))) s).
Proof.
  intros Hwf Hrun. unfold Core.run_for_instruction.
  rewrite (bind_eq _ _ s false s) by (unfold Core.gets; by rewrite Hrun).
  rewrite (bind_eq _ _ _ _ _ (fetch_eq s ltac:(by wf_split Hwf))).
  rewrite (bind_eq _ _ _ _ _
             (fetch_eq (Core.with_pc (next_pc (Core.pc s)) s) (next_pc_range _))).
  reflexivity.
Qed.

Lemma run_for_instruction_waiting rnd s :
  Core.is_waiting_for_keypress s = true →
  Core.run_for_instruction rnd s = Ok (tt, s).
Proof.
  intros Hw. unfold Core.run_for_instruction.
  rewrite (bind_eq _ _ s true s) by (unfold Core.gets; by rewrite Hw).
  reflexivity.
Qed.

Lemma run_for_instructions_reachable rand k :
  ∀ s s', reachable s →
          Core.run_for_instructions rand k s = Ok (tt, s') → reachable s'.
Proof.
  induction k as [|k IH]; intros s s' Hr H; simpl in H.
  - by injection H as <-.
  - apply bind_Ok in H as ([] & s1 & H1 & H2).
    eapply IH; [|exact H2]. by eapply reachable_step.
Qed.

Lemma boot_reachable rom k s : boot rom k = Ok s → reachable s.
Proof.
  unfold boot, steps, exec.
  destruct (Core.create rom) as [s0|f] eqn:Hc; [|done].
  destruct (Core.run_for_instructions _ k s0) as [[[] s1]|f] eqn:Hs; [|done].
  intros [= <-]. eapply run_for_instructions_reachable; [|exact Hs].
  by eapply reachable_create.
Qed.

(** * Properties of the core *)

(** C5: while the core waits for a key, one step changes nothing (no
    fetch, no decode, no execute: the whole state is returned as it
    was), and so does any number of steps run by the batch loop; the
    batch entry that ticks the timers afterwards does only that tick. *)
Theorem step_is_noop_while_waiting rnd rand instructions s :
  Core.is_waiting_for_keypress s = true →
  Core.run_for_instruction rnd s = Ok (tt, s) ∧
  Core.run_for_instructions rand instructions s = Ok (tt, s) ∧
  Core.run_for_instructions_then_tick_timers rand instructions s =
    Ok (tt, Core.tick_timers s).
Proof.
  intros Hw.
  assert (Core.run_for_instructions rand instructions s = Ok (tt, s)) as Hn.
  { induction instructions as [|k IH]; simpl; [done|].
    by rewrite (bind_eq _ _ _ _ _ (run_for_instruction_waiting _ s Hw)). }
  split; [by apply run_for_instruction_waiting|]. split; [exact Hn|].
  unfold Core.run_for_instructions_then_tick_timers.
  by rewrite (bind_eq _ _ _ _ _ Hn).
Qed.

Lemma step_is_noop_while_waiting_witness :
  Core.is_waiting_for_keypress waiting_machine = true ∧
  Core.run_for_instruction 7 waiting_machine = Ok (tt, waiting_machine) ∧
  Core.run_for_instructions (λ _, 7) 60 waiting_machine = Ok (tt, waiting_machine).
Proof.
  split; [reflexivity|].
  destruct (step_is_noop_while_waiting 7 (λ _, 7) 60 waiting_machine)
    as (H1 & Hn & _); [reflexivity|].
  split; [exact H1 | exact Hn].
Defined.

(** C8: in every state reachable from [create] through steps, timer
    ticks and keypad updates, the program counter and the index
    register are equal to themselves masked with 0x0FFF. *)
Theorem pc_and_index_fit_in_12_bits s :
  reachable s →
  Core.pc s = Z.land (Core.pc s) 0x0FFF ∧
  Core.i s = Z.land (Core.i s) 0x0FFF.
Proof.
  intros Hr. apply reachable_wf in Hr. wf_split Hr.
  change 0x0FFF with (Z.ones 12). rewrite !Z.land_ones by lia.
  rewrite !Z.mod_small by lia. done.
Qed.

Lemma pc_and_index_fit_in_12_bits_witness :
  reachable index_machine ∧
  Core.pc index_machine = Z.land (Core.pc index_machine) 0x0FFF ∧
  Core.i index_machine = Z.land (Core.i index_machine) 0x0FFF.
Proof.
  assert (reachable index_machine) as Hr.
  { apply (boot_reachable [0x60; 0xFF; 0xAF; 0xFF; 0xF0; 0x1E] 3).
    vm_compute. reflexivity. }
  split; [exact Hr|]. exact (pc_and_index_fit_in_12_bits index_machine Hr).
Defined.

(** C9: in every state whose timers hold 8-bit values, one timer tick
    takes 1 off the delay timer when it is above 0 and leaves it at 0
    otherwise, does the same to the sound timer whatever the delay
    timer holds, and touches nothing else. *)
Theorem tick_timers_decrements_with_floor s :
  uint8 (Core.timer_delay s) →
  uint8 (Core.timer_sound s) →
  let s' := Core.tick_timers s in
  (0 < Core.timer_delay s → Core.timer_delay s' = Core.timer_delay s - 1) ∧
  (Core.timer_delay s = 0 → Core.timer_delay s' = 0) ∧
  (0 < Core.timer_sound s → Core.timer_sound s' = Core.timer_sound s - 1) ∧
  (Core.timer_sound s = 0 → Core.timer_sound s' = 0) ∧
  0 ≤ Core.timer_delay s' ∧ 0 ≤ Core.timer_sound s' ∧
  s' = Core.with_timer_sound (Core.timer_sound s')
         (Core.with_timer_delay (Core.timer_delay s') s).
Proof.
  unfold uint8. intros Hd Hs.
  unfold Core.tick_timers. simpl.
  destruct (Z.ltb_spec 0 (Core.timer_delay s)),
           (Z.ltb_spec 0 (Core.timer_sound s));
    unfold to_uint8; rewrite ?Z.mod_small by lia;
    repeat split; try lia; try reflexivity.
Qed.

Lemma tick_timers_decrements_with_floor_witness :
  Core.timer_delay timer_machine = 5 ∧
  Core.timer_sound timer_machine = 0 ∧
  Core.timer_delay (Core.tick_timers timer_machine) = 4 ∧
  Core.timer_sound (Core.tick_timers timer_machine) = 0.
Proof.
  destruct (tick_timers_decrements_with_floor timer_machine)
    as (Hd & _ & _ & Hs & _).
  - vm_compute. split; [discriminate | reflexivity].
  - vm_compute. split; [discriminate | reflexivity].
  - split; [reflexivity|]. split; [reflexivity|].
    split; [apply Hd; reflexivity | apply Hs; reflexivity].
Defined.

(** ** Keypad updates *)

Lemma to_uint16_idemp z : to_uint16 (to_uint16 z) = to_uint16 z.
Proof. unfold to_uint16. apply Z.mod_mod. lia. Qed.

(** The newly set bits as the code computes them are the bits of the
    new bitmap that are not in the old one. *)
Lemma diff_is_newly_set bitmap old :
  Z.land (Z.lxor bitmap old) bitmap = Z.land bitmap (Z.lnot old).
Proof.
  apply Z.bits_inj'. intros k Hk.
  rewrite !Z.land_spec, Z.lxor_spec, Z.lnot_spec by lia.
  destruct (Z.testbit bitmap k), (Z.testbit old k); reflexivity.
Qed.

Lemma newly_set_range bitmap old :
  0 ≤ bitmap < 65536 → 0 ≤ Z.land bitmap (Z.lnot old) < 65536.
Proof.
  intros Hb.
  assert (bitmap = Z.land bitmap (Z.ones 16)) as Hmask
    by (rewrite Z.land_ones by lia; symmetry; apply Z.mod_small; lia).
  rewrite Hmask, <- Z.land_assoc, (Z.land_comm (Z.ones 16)), Z.land_assoc.
  rewrite Z.land_ones by lia. apply Z.mod_pos_bound. lia.
Qed.

Lemma log2_to_uint8_small d :
  0 < d < 65536 → Core.log2_to_uint8 d = Z.log2 d ∧ 0 ≤ Z.log2 d < 16.
Proof.
  intros Hd.
  assert (0 ≤ Z.log2 d < 16) as Hl.
  { split; [apply Z.log2_nonneg|]. apply Z.log2_lt_pow2; lia. }
  split; [|exact Hl]. unfold Core.log2_to_uint8, to_uint8.
  apply Z.mod_small. lia.
Qed.

(** What a keypad update does while the core waits and a key is newly
    down: the wait ends, the register named by the wait receives
    [Z.log2] of the newly set bits, then the latch takes the bitmap. *)
Lemma update_hexpad_bitmap_resolves s bitmap :
  wf s → Core.is_waiting_for_keypress s = true → 0 ≤ bitmap < 65536 →
  let newly := Z.land bitmap (Z.lnot (Hexpad.bitmap (Core.hexpad s))) in
  newly ≠ 0 →
  Core.update_hexpad_bitmap bitmap s =
    Ok (tt, Core.with_hexpad (Hexpad.mk bitmap)
              (Core.with_v
                 (<[Z.to_nat (Core.keypress_index_register s) := Z.log2 newly]>
                    (Core.v s))
                 (Core.with_is_waiting_for_keypress false s))).
Proof.
  intros Hwf Hw Hb newly Hnew.
  pose proof (newly_set_range bitmap (Hexpad.bitmap (Core.hexpad s)) Hb) as Hr.
  fold newly in Hr.
  destruct (log2_to_uint8_small newly ltac:(lia)) as [Hlog Hlog_range].
  wf_split Hwf.
  unfold Core.update_hexpad_bitmap, Core.reg_write, Hexpad.update_hexpad.
  run_monad. cbv beta iota zeta.
  rewrite to_uint16_idemp, (to_uint16_small bitmap Hb), diff_is_newly_set.
  fold newly. rewrite Hlog, Hw.
  replace (newly =? 0) with false by (symmetry; apply Z.eqb_neq; exact Hnew).
  simpl.
  replace (Core.keypress_index_register s <? 16) with true
    by (symmetry; apply Z.ltb_lt; lia).
  unfold to_uint8. rewrite (Z.mod_small (Z.log2 newly)) by lia.
  reflexivity.
Qed.

(** C10: when the core is not waiting for a key, a keypad update puts
    the new bitmap in the latch and changes no other field: registers,
    program counter, index register, memory, stack, stack pointer,
    timers, framebuffer and wait state stay as they were.  The same
    holds for the public entry that takes the sixteen key states. *)
Theorem keypad_update_only_replaces_latch bitmap hexpad s :
  Core.is_waiting_for_keypress s = false →
  0 ≤ bitmap < 65536 →
  (∃ s', Core.update_hexpad_bitmap bitmap s = Ok (tt, s') ∧
         Hexpad.bitmap (Core.hexpad s') = bitmap ∧
         s' = Core.with_hexpad (Core.hexpad s') s) ∧
  (∃ s', Core.update_hexpad hexpad s = Ok (tt, s') ∧
         s' = Core.with_hexpad (Core.hexpad s') s ∧
         Core.v s' = Core.v s ∧ Core.pc s' = Core.pc s ∧
         Core.i s' = Core.i s ∧ Core.main_memory s' = Core.main_memory s ∧
         Core.stack s' = Core.stack s ∧ Core.sp s' = Core.sp s ∧
         Core.timer_sound s' = Core.timer_sound s ∧
         Core.timer_delay s' = Core.timer_delay s ∧
         Core.fb s' = Core.fb s ∧
         Core.is_waiting_for_keypress s' = false ∧
         Core.keypress_index_register s' = Core.keypress_index_register s).
Proof.
  intros Hrun Hb.
  assert (∀ b, Core.update_hexpad_bitmap b s =
               Ok (tt, Core.with_hexpad (Hexpad.mk (to_uint16 b)) s)) as Heq.
  { intros b. unfold Core.update_hexpad_bitmap, Hexpad.update_hexpad.
    run_monad. cbv beta iota zeta. rewrite Hrun, to_uint16_idemp. reflexivity. }
  split.
  - eexists. split; [apply Heq|]. simpl.
    split; [by apply to_uint16_small | reflexivity].
  - unfold Core.update_hexpad. eexists. split; [apply Heq|].
    simpl. by rewrite Hrun.
Qed.

Lemma keypad_update_only_replaces_latch_witness :
  Core.is_waiting_for_keypress index_machine = false ∧
  ∃ s', Core.update_hexpad_bitmap 0x0081 index_machine = Ok (tt, s') ∧
        Hexpad.bitmap (Core.hexpad s') = 0x0081 ∧
        s' = Core.with_hexpad (Core.hexpad s') index_machine.
Proof.
  split; [reflexivity|].
  apply (keypad_update_only_replaces_latch 0x0081 [] index_machine);
    [reflexivity | lia].
Defined.

Lemma lowest_set_bit_pow2 j : 0 ≤ j → lowest_set_bit (2 ^ j) = j.
Proof.
  intros Hj. pattern j. apply natlike_ind; [reflexivity | | exact Hj].
  intros x Hx IH. rewrite Z.pow_succ_r by lia.
  assert (0 < 2 ^ x) as Hpos by (apply Z.pow_pos_nonneg; lia).
  destruct (2 ^ x) as [|p|p] eqn:E; try lia.
  change (lowest_set_bit (2 * Z.pos p)) with (1 + lowest_set_bit (Z.pos p)).
  lia.
Qed.

(** C4, as stated, fails: the machine waits on register 3 with no key
    down; keys 1 and 3 go down together; the lowest newly set bit is
    1, but register 3 receives 3. *)
Lemma keypad_wait_lowest_bit_counterexample :
  wf waiting_machine ∧
  Core.is_waiting_for_keypress waiting_machine = true ∧
  Core.keypress_index_register waiting_machine = 3 ∧
  Hexpad.bitmap (Core.hexpad waiting_machine) = 0 ∧
  Z.land 0x000A (Z.lnot 0) ≠ 0 ∧
  lowest_set_bit (Z.land 0x000A (Z.lnot 0)) = 1 ∧
  (∃ s', Core.update_hexpad_bitmap 0x000A waiting_machine = Ok (tt, s') ∧
         reg s' 3 = Some 3) ∧
  ¬ wait_resolution lowest_set_bit waiting_machine 0x000A.
Proof.
  assert (∃ s', Core.update_hexpad_bitmap 0x000A waiting_machine = Ok (tt, s') ∧
                reg s' 3 = Some 3) as Hcode.
  { eexists. split; vm_compute; reflexivity. }
  split; [apply (bool_decide_unpack _); vm_compute; exact I|].
  do 5 (split; [by vm_compute|]).
  split; [exact Hcode|].
  intros (s' & Hrun & _ & Hreg & _).
  destruct Hcode as (s'' & Hrun' & Hreg').
  rewrite Hrun in Hrun'. injection Hrun' as ->.
  change (Core.keypress_index_register waiting_machine) with 3 in Hreg.
  rewrite Hreg' in Hreg. vm_compute in Hreg. discriminate Hreg.
Qed.

(** C4, amended: for every waiting state whose wait names a register,
    a keypad update in which some bit is newly set ends the wait and
    writes into that register the index of the highest newly set bit
    (the only one when a single key went down), then stores the new
    bitmap in the latch; nothing else changes. *)
Theorem keypad_wait_resolves_to_highest_new_bit s bitmap :
  wf s →
  Core.is_waiting_for_keypress s = true →
  0 ≤ bitmap < 65536 →
  let newly := Z.land bitmap (Z.lnot (Hexpad.bitmap (Core.hexpad s))) in
  let k := Z.log2 newly in
  newly ≠ 0 →
  wait_resolution Z.log2 s bitmap ∧
  Z.testbit newly k = true ∧
  (∀ j, k < j → Z.testbit newly j = false) ∧
  (∀ j, 0 ≤ j → newly = 2 ^ j → k = j ∧ lowest_set_bit newly = j) ∧
  (∀ s', Core.update_hexpad_bitmap bitmap s = Ok (tt, s') →
         (∀ r, r ≠ Z.to_nat (Core.keypress_index_register s) →
               Core.v s' !! r = Core.v s !! r) ∧
         Core.with_v (Core.v s)
           (Core.with_is_waiting_for_keypress true
              (Core.with_hexpad (Core.hexpad s) s')) = s).
Proof.
  intros Hwf Hw Hb newly k Hnew.
  pose proof (update_hexpad_bitmap_resolves s bitmap Hwf Hw Hb Hnew) as Heq.
  fold newly in Heq. fold k in Heq.
  pose proof (newly_set_range bitmap (Hexpad.bitmap (Core.hexpad s)) Hb) as Hr.
  fold newly in Hr.
  assert (Hwf' := Hwf). wf_split Hwf'.
  split; [|split; [|split; [|split]]].
  - eexists. split; [exact Heq|]. simpl. split; [reflexivity|].
    split; [|reflexivity]. unfold reg. simpl.
    apply list_lookup_insert_eq. lia.
  - apply Z.bit_log2. lia.
  - intros j Hj. apply Z.bits_above_log2; lia.
  - intros j Hj Hpow. split.
    + unfold k. rewrite Hpow. by apply Z.log2_pow2.
    + rewrite Hpow. by apply lowest_set_bit_pow2.
  - intros s' Hs'. rewrite Heq in Hs'. injection Hs' as <-. simpl. split.
    + intros r Hne. by apply list_lookup_insert_ne.
    + rewrite <- Hw. by destruct s.
Qed.

Lemma keypad_wait_resolves_to_highest_new_bit_witness :
  ∃ s', Core.update_hexpad_bitmap 0x0080 waiting_machine = Ok (tt, s') ∧
        Core.is_waiting_for_keypress s' = false ∧
        reg s' 3 = Some 7.
Proof.
  assert (wf waiting_machine) as Hwf
    by (apply (bool_decide_unpack _); vm_compute; exact I).
  destruct (keypad_wait_resolves_to_highest_new_bit waiting_machine 0x0080 Hwf)
    as ((s' & Hrun & Hclear & Hreg & _) & _).
  - reflexivity.
  - lia.
  - by vm_compute.
  - exists s'. split; [exact Hrun|]. split; [exact Hclear|]. exact Hreg.
Defined.

(** ** Unknown instruction words *)

Lemma execute_unknown rnd w nnn nn n x y vx vy v0 i pc kp s :
  0 ≤ w < 65536 → known_opcode w = false →
  Core.execute rnd w nnn nn n x y vx vy v0 i pc kp
    (to_uint8 (Z.shiftr w 12)) (to_uint8 (Z.land w 0x000f))
    (to_uint8 (Z.land w 0x00ff)) s
  = Abort (invalid_instruction (pc - 2) w).
Proof.
  intros Hw Hk.
  assert (0 ≤ Z.shiftr w 12 < 16) as Htop.
  { rewrite Z.shiftr_div_pow2 by lia. change (2 ^ 12) with 4096.
    split; [apply Z.div_pos; lia | apply Z.div_lt_upper_bound; lia]. }
  pose proof (land_4_range w) as Hn.
  assert (0 ≤ Z.land w 0xff < 256) as Hb.
  { change 0xff with (Z.ones 8). rewrite Z.land_ones by lia.
    apply Z.mod_pos_bound. lia. }
  unfold known_opcode in Hk. unfold to_uint8.
  rewrite !Z.mod_small by lia.
  revert Hk Htop Hn Hb.
  generalize (Z.shiftr w 12) as top, (Z.land w 0xf) as low_nibble,
    (Z.land w 0xff) as low_byte.
  intros top low_nibble low_byte Hk Htop Hn Hb.
  rewrite !orb_false_iff in Hk.
  destruct Hk as ((((((He0 & Hee) & H17) & H8) & H9d) & He) & Hf).
  unfold Core.execute. rewrite He0, Hee. clear He0 Hee Hw.
  destruct top as [|top|top]; [reflexivity | | lia].
  do 4 (try destruct top as [top|top|]); try lia;
    simpl in *; try discriminate; try reflexivity.
  - (* 0xF: the low byte selects *)
    destruct low_byte as [|b|b]; [reflexivity | | lia].
    do 8 (try destruct b as [b|b|]); try lia;
      simpl in *; try discriminate; reflexivity.
  - (* 0xE: the low byte selects *)
    destruct low_byte as [|b|b]; [reflexivity | | lia].
    do 8 (try destruct b as [b|b|]); try lia;
      simpl in *; try discriminate; reflexivity.
  - (* 8: the low nibble selects *)
    destruct low_nibble as [|b|b]; [discriminate | | lia].
    do 4 (try destruct b as [b|b|]); try lia;
      simpl in *; try discriminate; reflexivity.
Qed.

Lemma fetched_instruction_range s : 0 ≤ fetched_instruction s < 65536.
Proof. apply to_uint16_range. Qed.

(** A word with top nibble 0 other than 0x00E0 and 0x00EE is not a
    known opcode. *)
Lemma top_nibble_0_unknown w :
  0 ≤ w < 65536 → Z.shiftr w 12 = 0 →
  Z.land w 0x0fff ≠ 0x0E0 → Z.land w 0x0fff ≠ 0x0EE →
  known_opcode w = false.
Proof.
  intros Hw Htop H1 H2.
  assert (Z.land w 0x0fff = w) as Hlow.
  { change 0x0fff with (Z.ones 12). rewrite Z.land_ones by lia.
    rewrite Z.shiftr_div_pow2 in Htop by lia. change (2 ^ 12) with 4096 in *.
    apply Z.mod_small. split; [lia|].
    destruct (Z.lt_ge_cases w 4096) as [|Hge]; [done|].
    assert (1 ≤ w / 4096) by (apply Z.div_le_lower_bound; lia). lia. }
  rewrite Hlow in H1, H2. unfold known_opcode. rewrite Htop.
  apply Z.eqb_neq in H1, H2. rewrite H1, H2. reflexivity.
Qed.

(** C6: when the core is running and the word at the program counter
    has top nibble 0 without being 0x00E0 or 0x00EE, or matches no
    known opcode pattern, the step stops the machine with the decode
    error that carries the faulting address and the word; no state is
    returned, so the word is neither skipped nor a no-op. *)
Theorem unknown_word_is_fatal rnd s :
  wf s →
  Core.is_waiting_for_keypress s = false →
  let w := fetched_instruction s in
  (Z.shiftr w 12 = 0 ∧ Z.land w 0x0fff ≠ 0x0E0 ∧ Z.land w 0x0fff ≠ 0x0EE) ∨
  known_opcode w = false →
  Core.run_for_instruction rnd s =
    Abort (invalid_instruction (next_pc (next_pc (Core.pc s)) - 2) w).
Proof.
  intros Hwf Hrun w Hbad.
  pose proof (fetched_instruction_range s) as Hw. fold w in Hw.
  assert (known_opcode w = false) as Hk.
  { destruct Hbad as [(Htop & H1 & H2)|Hk]; [|exact Hk].
    by apply top_nibble_0_unknown. }
  rewrite run_for_instruction_running by assumption.
  rewrite decode_eq. fold w. cbv zeta.
  by rewrite execute_unknown.
Qed.

Lemma unknown_word_is_fatal_witness :
  fetched_instruction machine_code_call_machine = 0x0123 ∧
  Core.run_for_instruction 0 machine_code_call_machine =
    Abort (invalid_instruction 0x200 0x0123).
Proof.
  split; [reflexivity|].
  apply (unknown_word_is_fatal 0 machine_code_call_machine).
  - apply (bool_decide_unpack _). vm_compute. exact I.
  - reflexivity.
  - left. vm_compute. repeat split; discriminate.
Defined.

(** The register-compare skips are selected by the top nibble alone:
    0x5011 on a fresh machine (V0 = V1) runs as a skip. *)
Lemma skip_family_ignores_low_nibble :
  ∃ s, boot [0x50; 0x11] 1 = Ok s ∧ Core.pc s = 0x204.
Proof. eexists. split; [vm_compute; reflexivity | reflexivity]. Qed.

(** ** The framebuffer at creation and after a clear *)

Lemma at_index_replicate_0 n k : at_index (replicate n 0) k = 0.
Proof.
  unfold at_index. destruct (replicate n 0 !! Z.to_nat k) as [b|] eqn:E;
    [|reflexivity].
  apply lookup_replicate in E as [-> _]. reflexivity.
Qed.

Lemma zero_init_all_pixels_off : all_pixels_off Framebuffer.zero_init.
Proof.
  intros x y Hx Hy. unfold Framebuffer.pixel_status.
  unfold Framebuffer.FB_WIDTH, Framebuffer.FB_HEIGHT in *.
  replace (x <? 60) with true by (symmetry; apply Z.ltb_lt; lia).
  replace (y <? 60) with true by (symmetry; apply Z.ltb_lt; lia).
  unfold Framebuffer.zero_init. cbn [andb Framebuffer.pixel_array].
  by rewrite at_index_replicate_0.
Qed.

Lemma clear_is_zero_init fb : Framebuffer.clear fb = Framebuffer.zero_init.
Proof. reflexivity. Qed.

(** A loop returns when each of its iterations does, keeping [Inv]. *)
Lemma for_loop_Ok {A} (Inv : Core.t → Prop) count (body : Z → A → Core.M A) :
  ∀ from acc s,
    Inv s →
    (∀ k acc s, from ≤ k < from + Z.of_nat count → Inv s →
                ∃ acc' s', body k acc s = Ok (acc', s') ∧ Inv s') →
    ∃ acc' s', Core.for_loop count from body acc s = Ok (acc', s') ∧ Inv s'.
Proof.
  induction count as [|count IH]; intros from acc s HI Hbody; simpl.
  - by exists acc, s.
  - destruct (Hbody from acc s ltac:(lia) HI) as (acc1 & s1 & H1 & HI1).
    rewrite (bind_eq _ _ _ _ _ H1).
    apply IH; [exact HI1|]. intros k acc2 s2 Hk. apply Hbody. lia.
Qed.

Lemma mem_write_eq address value s :
  0 ≤ address < 4096 →
  Core.mem_write address value s =
    Ok (tt, Core.with_main_memory
              (<[Z.to_nat address := to_uint8 value]> (Core.main_memory s)) s).
Proof.
  intros Ha. unfold Core.mem_write. rewrite to_uint16_small by lia.
  run_monad.
  replace (address <? 4096) with true by (symmetry; apply Z.ltb_lt; lia).
  reflexivity.
Qed.

(** [create] accepts every ROM of at most 3584 bytes, and the machine
    it returns has the framebuffer of a zero-initialised core. *)
Lemma create_Ok rom :
  (length rom ≤ 3584)%nat →
  ∃ s, Core.create rom = Ok s ∧ Core.fb s = Framebuffer.zero_init.
Proof.
  intros Hlen. unfold Core.create.
  set (Inv := λ s : Core.t, Core.fb s = Framebuffer.zero_init).
  assert (∀ (src : list Z) offset k (acc : unit) s,
            0 ≤ k + offset < 4096 → Inv s →
            ∃ acc' s', Core.mem_write (k + offset) (at_index src k) s
                       = Ok (acc', s') ∧ Inv s') as Hwrite.
  { intros src offset k acc s Hk HI. rewrite mem_write_eq by lia.
    by exists tt, (Core.with_main_memory
                     (<[Z.to_nat (k + offset) := to_uint8 (at_index src k)]>
                        (Core.main_memory s)) s). }
  destruct (for_loop_Ok Inv (length rom)
              (λ k _, Core.mem_write (k + 512) (at_index rom k))
              0 tt Core.zero_init eq_refl) as ([] & s1 & H1 & HI1).
  { intros k acc s Hk. apply (Hwrite rom 512 k acc s). lia. }
  destruct (for_loop_Ok Inv (length Core.FONT_DATA)
              (λ k _, Core.mem_write k (at_index Core.FONT_DATA k))
              0 tt s1 HI1) as ([] & s2 & H2 & HI2).
  { intros k acc s Hk HI. simpl in Hk.
    destruct (Hwrite Core.FONT_DATA 0 k acc s ltac:(lia) HI) as (a & s' & Hw & HI').
    rewrite Z.add_0_r in Hw. eauto. }
  exists (Core.with_pc 0x200 s2). split; [|exact HI2].
  run_monad.
  replace (4096 - 512 <? Z.of_nat (length rom)) with false
    by (symmetry; apply Z.ltb_ge; lia).
  cbv beta iota. rewrite H1. cbv beta iota. rewrite H2. reflexivity.
Qed.

(** C7: [create] accepts every ROM of at most 3584 bytes and returns a
    machine whose framebuffer pixels all read off; and a running
    machine that executes the clear-screen word 0x00E0 is left with
    all framebuffer pixels off. *)
Theorem framebuffer_off_at_creation_and_after_clear :
  (∀ rom, (length rom ≤ 3584)%nat →
          ∃ s0, Core.create rom = Ok s0 ∧
                all_pixels_off (Core.framebuffer s0)) ∧
  (∀ rnd s, wf s →
            Core.is_waiting_for_keypress s = false →
            fetched_instruction s = 0x00E0 →
            ∃ s', Core.run_for_instruction rnd s = Ok (tt, s') ∧
                  all_pixels_off (Core.framebuffer s')).
Proof.
  split.
  - intros rom Hlen. destruct (create_Ok rom Hlen) as (s0 & Hc & Hfb).
    exists s0. split; [exact Hc|]. unfold Core.framebuffer. rewrite Hfb.
    apply zero_init_all_pixels_off.
  - intros rnd s Hwf Hrun Hw.
    rewrite run_for_instruction_running by assumption.
    rewrite decode_eq. cbv zeta. rewrite Hw.
    unfold Core.execute. change (0x00E0 =? 0x00e0) with true. cbv iota.
    eexists. split; [reflexivity|]. simpl.
    apply zero_init_all_pixels_off.
Qed.

Lemma framebuffer_off_at_creation_and_after_clear_witness :
  (∃ s0, Core.create [0x00; 0xE0] = Ok s0 ∧
         all_pixels_off (Core.framebuffer s0)) ∧
  (∃ s', Core.run_for_instruction 0 clear_screen_machine = Ok (tt, s') ∧
         all_pixels_off (Core.framebuffer s')).
Proof.
  destruct framebuffer_off_at_creation_and_after_clear as [Hcreate Hclear].
  split.
  - apply (Hcreate [0x00; 0xE0]). simpl. lia.
  - apply (Hclear 0 clear_screen_machine).
    + apply (bool_decide_unpack _). vm_compute. exact I.
    + reflexivity.
    + reflexivity.
Defined.

(** ** Where the code departs from the specification *)

(** The no-borrow test of 8XY5 and 8XY7 compares an unsigned result
    with 0, so it never holds. *)
Lemma no_borrow_test_never_holds a b : (to_uint32 (a - b) <? 0) = false.
Proof.
  apply Z.ltb_ge. unfold to_uint32. apply Z.mod_pos_bound. lia.
Qed.

(** [stack_pop] stores the program counter and never loads it. *)
Lemma stack_pop_keeps_pc s u s' :
  Core.stack_pop s = Ok (u, s') → Core.pc s' = Core.pc s.
Proof.
  intros H. unfold Core.stack_pop in H. monad_inv H. reflexivity.
Qed.

(** C2, the code at the failing input: V0 = 10, V1 = 3, then 8015
    (V0 := V0 - V1).  V0 becomes 7 but VF is 0, where the specification has
    VF = 1; with V0 = 3, V1 = 10 the code gives 249 and VF = 0. *)
Theorem subtract_leaves_flag_clear :
  (∃ s, boot [0x60; 10; 0x61; 3; 0x80; 0x15] 3 = Ok s ∧
        reg s 0 = Some 7 ∧ reg s 15 = Some 0) ∧
  (∃ s, boot [0x60; 3; 0x61; 10; 0x80; 0x15] 3 = Ok s ∧
        reg s 0 = Some 249 ∧ reg s 15 = Some 0).
Proof.
  split; eexists; (split; [vm_compute; reflexivity|]);
    split; vm_compute; reflexivity.
Qed.

(** C3, the code at the failing input: a call at 0x200 to 0x204, where
    a return stands.  The call saves 0x202; the return leaves the
    program counter at 0x206, after the return's own fetch, and writes
    that value over the saved one, where the specification has the program
    counter back at 0x202. *)
Theorem return_does_not_restore_pc :
  ∃ s0 s1 s2,
    Core.create [0x22; 0x04; 0x00; 0x00; 0x00; 0xEE] = Ok s0 ∧
    Core.pc s0 = 0x200 ∧ Core.sp s0 = 0 ∧
    Core.run_for_instruction 0 s0 = Ok (tt, s1) ∧
    Core.pc s1 = 0x204 ∧ Core.sp s1 = 1 ∧ Core.stack s1 !! 0%nat = Some 0x202 ∧
    Core.run_for_instruction 0 s1 = Ok (tt, s2) ∧
    Core.pc s2 = 0x206 ∧ Core.sp s2 = 0 ∧ Core.stack s2 !! 0%nat = Some 0x206.
Proof.
  do 3 eexists.
  split; [vm_compute; reflexivity|].
  do 2 (split; [reflexivity|]).
  split; [vm_compute; reflexivity|].
  do 3 (split; [reflexivity|]).
  split; [vm_compute; reflexivity|].
  repeat split.
Qed.

(** C1, the code at the failing input: a fresh machine (screen off,
    I = 0 pointing at the glyph F0 90 90 90 F0, V0 = V1 = 0) runs D015
    twice.  The first draw reports a collision on an empty screen and
    lights only the cell (0, 1) named by the operand nibbles x = 0 and
    y = 1, leaving the eight cells of the sprite's first row off; the
    second draw leaves cell (0, 1) on. *)
Theorem draw_sprite_ignores_target_cells :
  ∃ s0 s1 s2,
    Core.create [0xD0; 0x15; 0xD0; 0x15] = Ok s0 ∧
    Framebuffer.pixel_array (Core.fb s0) = replicate 3600 Framebuffer.PIXEL_OFF ∧
    Core.i s0 = 0 ∧ reg s0 0 = Some 0 ∧ reg s0 1 = Some 0 ∧
    Core.run_for_instruction 0 s0 = Ok (tt, s1) ∧
    reg s1 15 = Some 1 ∧
    Framebuffer.pixel_array (Core.fb s1) =
      <[60%nat := Framebuffer.PIXEL_ON]> (replicate 3600 Framebuffer.PIXEL_OFF) ∧
    Forall (λ col, Framebuffer.pixel_status (Core.fb s1) col 0 = Ok false)
           [0; 1; 2; 3; 4; 5; 6; 7] ∧
    Framebuffer.pixel_status (Core.fb s1) 0 1 = Ok true ∧
    Core.run_for_instruction 0 s1 = Ok (tt, s2) ∧
    Framebuffer.pixel_status (Core.fb s2) 0 1 = Ok true.
Proof.
  do 3 eexists.
  split; [vm_compute; reflexivity|].
  do 4 (split; [reflexivity|]).
  split; [vm_compute; reflexivity|].
  split; [reflexivity|].
  split; [vm_compute; reflexivity|].
  split; [repeat constructor|].
  split; [reflexivity|].
  split; [vm_compute; reflexivity|].
  reflexivity.
Qed.

(** * Further properties of the code *)

(** ** Array cells *)

Lemma at_index_insert_eq l k x :
  0 ≤ k → (Z.to_nat k < length l)%nat →
  at_index (<[Z.to_nat k := x]> l) k = x.
Proof.
  intros Hk Hlen. unfold at_index. by rewrite list_lookup_insert_eq.
Qed.

Lemma at_index_insert_ne l k j x :
  0 ≤ k → 0 ≤ j → j ≠ k →
  at_index (<[Z.to_nat k := x]> l) j = at_index l j.
Proof.
  intros Hk Hj Hne. unfold at_index.
  rewrite list_lookup_insert_ne; [done|]. lia.
Qed.

Lemma ltb_true a b : a < b → (a <? b) = true.
Proof. apply Z.ltb_lt. Qed.

Lemma ltb_false a b : b ≤ a → (a <? b) = false.
Proof. apply Z.ltb_ge. Qed.

(** X1: on the sixteen registers, a write followed by a read of the
    same index returns the written value modulo 256 and leaves every
    other register and every other field as it was; an index of 16 or
    more stops the program in both accessors. *)
Theorem reg_write_then_read index value s :
  length (Core.v s) = 16%nat → 0 ≤ index →
  (index < 16 →
   ∃ s', Core.reg_write index value s = Ok (tt, s') ∧
         Core.reg_read index s' = Ok (value mod 256, s') ∧
         (∀ j, 0 ≤ j → j ≠ index → V s' j = V s j) ∧
         s' = Core.with_v (Core.v s') s) ∧
  (16 ≤ index →
   Core.reg_write index value s = Abort index_out_of_range ∧
   Core.reg_read index s = Abort index_out_of_range).
Proof.
  intros Hlen Hidx. split; intros Hr.
  - unfold Core.reg_write, Core.reg_read. run_monad.
    rewrite (ltb_true index 16 Hr). cbv beta iota.
    eexists. split; [reflexivity|]. cbn [Core.v Core.with_v].
    split; [|split; [|reflexivity]].
    + rewrite at_index_insert_eq by lia. reflexivity.
    + intros j Hj Hne. unfold V. cbn [Core.v Core.with_v].
      by apply at_index_insert_ne.
  - unfold Core.reg_write, Core.reg_read. run_monad.
    by rewrite (ltb_false index 16 Hr).
Qed.

Lemma reg_write_then_read_witness :
  ∃ s', Core.reg_write 4 0x1FF index_machine = Ok (tt, s') ∧
        Core.reg_read 4 s' = Ok (0xFF, s').
Proof.
  destruct (reg_write_then_read 4 0x1FF index_machine) as [Hin _].
  - reflexivity.
  - lia.
  - destruct (Hin ltac:(lia)) as (s' & Hw & Hr & _).
    exists s'. split; [exact Hw | exact Hr].
Defined.

(** X2: on the 4096 bytes of memory, a write followed by a read of the
    same address returns the written value modulo 256 and leaves every
    other byte and every other field as it was; an address from 4096
    to 65535 stops the program in both accessors. *)
Theorem mem_write_then_read address value s :
  length (Core.main_memory s) = 4096%nat → 0 ≤ address < 65536 →
  (address < 4096 →
   ∃ s', Core.mem_write address value s = Ok (tt, s') ∧
         Core.mem_read address s' = Ok (value mod 256, s') ∧
         (∀ a, 0 ≤ a → a ≠ address → mem s' a = mem s a) ∧
         s' = Core.with_main_memory (Core.main_memory s') s) ∧
  (4096 ≤ address →
   Core.mem_write address value s = Abort index_out_of_range ∧
   Core.mem_read address s = Abort index_out_of_range).
Proof.
  intros Hlen Ha. split; intros Hr.
  - unfold Core.mem_write, Core.mem_read. run_monad.
    rewrite (to_uint16_small address Ha), (ltb_true address 4096 Hr).
    cbv beta iota zeta.
    eexists. split; [reflexivity|]. cbn [Core.main_memory Core.with_main_memory].
    split; [|split; [|reflexivity]].
    + rewrite at_index_insert_eq by lia. reflexivity.
    + intros a Ha' Hne. unfold mem. cbn [Core.main_memory Core.with_main_memory].
      apply at_index_insert_ne; lia.
  - unfold Core.mem_write, Core.mem_read. run_monad.
    by rewrite (to_uint16_small address Ha), (ltb_false address 4096 Hr).
Qed.

Lemma mem_write_then_read_witness :
  ∃ s', Core.mem_write 0x300 0x1AB index_machine = Ok (tt, s') ∧
        Core.mem_read 0x300 s' = Ok (0xAB, s').
Proof.
  destruct (mem_write_then_read 0x300 0x1AB index_machine) as [Hin _].
  - reflexivity.
  - lia.
  - destruct (Hin ltac:(lia)) as (s' & Hw & Hr & _).
    exists s'. split; [exact Hw | exact Hr].
Defined.

(** X3: on the 60 by 60 framebuffer, setting a cell and reading it
    back returns the written status and no other cell changes; a
    column or a row of 60 or more stops the program in both methods. *)
Theorem set_pixel_then_pixel_status fb x y status :
  length (Framebuffer.pixel_array fb) = 3600%nat → 0 ≤ x → 0 ≤ y →
  (x < 60 → y < 60 →
   ∃ fb', Framebuffer.set_pixel fb x y status = Ok fb' ∧
          Framebuffer.pixel_status fb' x y = Ok status ∧
          length (Framebuffer.pixel_array fb') = 3600%nat ∧
          ∀ x' y', 0 ≤ x' < 60 → 0 ≤ y' < 60 → (x', y') ≠ (x, y) →
                   Framebuffer.pixel_status fb' x' y' =
                   Framebuffer.pixel_status fb x' y') ∧
  (60 ≤ x ∨ 60 ≤ y →
   Framebuffer.set_pixel fb x y status = Abort index_out_of_range ∧
   Framebuffer.pixel_status fb x y = Abort index_out_of_range).
Proof.
  intros Hlen Hx Hy.
  unfold Framebuffer.set_pixel, Framebuffer.pixel_status,
    Framebuffer.FB_WIDTH, Framebuffer.FB_HEIGHT.
  split.
  - intros Hx' Hy'. rewrite (ltb_true x 60 Hx'), (ltb_true y 60 Hy').
    cbn [andb]. eexists. split; [reflexivity|].
    cbn [Framebuffer.pixel_array]. split; [|split].
    + rewrite at_index_insert_eq by lia. by destruct status.
    + by rewrite length_insert.
    + intros x' y' Hx'' Hy'' Hne.
      rewrite at_index_insert_ne; [done | lia | lia |].
      intros Heq. apply Hne. f_equal; lia.
  - intros [Hbig|Hbig].
    + by rewrite (ltb_false x 60 Hbig).
    + rewrite (ltb_false y 60 Hbig). by rewrite andb_false_r.
Qed.

Lemma set_pixel_then_pixel_status_witness :
  ∃ fb', Framebuffer.set_pixel Framebuffer.zero_init 59 7 true = Ok fb' ∧
         Framebuffer.pixel_status fb' 59 7 = Ok true ∧
         Framebuffer.pixel_status fb' 0 8 = Ok false.
Proof.
  destruct (set_pixel_then_pixel_status Framebuffer.zero_init 59 7 true)
    as [Hin _]; [reflexivity | lia | lia |].
  destruct (Hin ltac:(lia) ltac:(lia)) as (fb' & Hset & Hget & _ & Hother).
  exists fb'. split; [exact Hset|]. split; [exact Hget|].
  rewrite (Hother 0 8); [reflexivity | lia | lia | discriminate].
Defined.

(** ** One step, in terms of the instruction word *)

Lemma step_execute rnd s :
  wf s → Core.is_waiting_for_keypress s = false →
  Core.run_for_instruction rnd s =
    let w := fetched_instruction s in
    Core.execute rnd w (op_nnn w) (op_nn w) (op_n w) (op_x w) (op_y w)
      (V s (op_x w)) (V s (op_y w)) (V s 0) (Core.i s)
      (Core.pc (after_fetch s)) (key_down s (V s (op_x w)))
      (to_uint8 (op_top w)) (to_uint8 (op_n w)) (to_uint8 (op_nn w))
      (after_fetch s).
Proof.
  intros Hwf Hrun. rewrite run_for_instruction_running by assumption.
  by rewrite decode_eq.
Qed.

Lemma top_nibble_not_full_word w :
  op_top w ≠ 0 → (w =? 0x00e0) = false ∧ (w =? 0x00ee) = false.
Proof.
  intros Htop. split; apply Z.eqb_neq; intros ->; by apply Htop.
Qed.

Lemma V_range s r : wf s → uint8 (V s r).
Proof. intros Hwf. apply at_index_range. by wf_split Hwf. Qed.

Lemma op_x_range w : 0 ≤ op_x w < 16.
Proof. apply land_4_range. Qed.

Lemma op_y_range w : 0 ≤ op_y w < 16.
Proof. apply land_4_range. Qed.

Lemma op_n_range w : 0 ≤ op_n w < 16.
Proof. apply land_4_range. Qed.

Lemma op_nnn_range w : 0 ≤ op_nnn w < 4096.
Proof. apply land_12_range. Qed.

Lemma op_nn_range w : 0 ≤ op_nn w < 256.
Proof.
  unfold op_nn. change 0x00ff with (Z.ones 8). rewrite Z.land_ones by lia.
  apply Z.mod_pos_bound. lia.
Qed.

Lemma to_uint8_small z : 0 ≤ z < 256 → to_uint8 z = z.
Proof. intros. unfold to_uint8. apply Z.mod_small. lia. Qed.

Lemma mask_12_small z : 0 ≤ z < 4096 → Z.land (to_uint16 z) 0x0fff = z.
Proof.
  intros Hz. rewrite to_uint16_small by lia.
  change 0x0fff with (Z.ones 12). rewrite Z.land_ones by lia.
  apply Z.mod_small. lia.
Qed.

(** Brings a step on a word of a given top nibble to the matching
    branch of the [switch]. *)
Ltac step_top Hwf Hrun Htop :=
  rewrite (step_execute _ _ Hwf Hrun); cbv zeta;
  unfold Core.execute;
  let H1 := fresh in
  let H2 := fresh in
  destruct (top_nibble_not_full_word (fetched_instruction _)
              ltac:(rewrite Htop; discriminate)) as [H1 H2];
  rewrite H1, H2, Htop; clear H1 H2.

Lemma mask_12_mod z : Z.land (to_uint16 z) 0x0fff = z mod 4096.
Proof.
  change 0x0fff with (Z.ones 12). rewrite Z.land_ones by lia.
  unfold to_uint16. apply Z.mod_mod_divide. exists 16. reflexivity.
Qed.

Lemma next_pc_mod p : next_pc p = (p + 1) mod 4096.
Proof. apply mask_12_mod. Qed.

Lemma after_fetch_pc s : Core.pc (after_fetch s) = (Core.pc s + 2) mod 4096.
Proof.
  unfold after_fetch. cbn [Core.pc Core.with_pc]. rewrite !next_pc_mod.
  rewrite Z.add_mod_idemp_l by lia. f_equal. lia.
Qed.

Lemma skip_pc s :
  Z.land (to_uint16 (Core.pc (after_fetch s) + 2)) 0x0fff =
  (Core.pc s + 4) mod 4096.
Proof.
  rewrite mask_12_mod, after_fetch_pc, Z.add_mod_idemp_l by lia.
  f_equal. lia.
Qed.

(** X4: a jump (1NNN) loads the program counter with the low 12 bits
    of the word, and a jump with offset (BNNN) with V0 plus those bits
    modulo 4096; neither changes anything else. *)
Theorem jumps_set_pc rnd s :
  wf s → Core.is_waiting_for_keypress s = false →
  let w := fetched_instruction s in
  (op_top w = 1 →
   Core.run_for_instruction rnd s = Ok (tt, Core.with_pc (op_nnn w) s)) ∧
  (op_top w = 0xB →
   Core.run_for_instruction rnd s =
     Ok (tt, Core.with_pc ((V s 0 + op_nnn w) mod 4096) s)).
Proof.
  intros Hwf Hrun w. subst w. split; intros Htop; step_top Hwf Hrun Htop.
  - change (to_uint8 1) with 1. cbv iota.
    unfold Core.pc_set. run_monad.
    rewrite mask_12_small by apply op_nnn_range. reflexivity.
  - change (to_uint8 0xB) with 0xB. cbv iota.
    unfold Core.pc_set. run_monad. by rewrite mask_12_mod.
Qed.

Lemma jumps_set_pc_witness :
  Core.run_for_instruction 0 (loaded_machine [0xBF; 0xFF]) =
    Ok (tt, Core.with_pc 0x0F9 (loaded_machine [0xBF; 0xFF])).
Proof.
  destruct (jumps_set_pc 0 (loaded_machine [0xBF; 0xFF])) as [_ Hb].
  - apply (bool_decide_unpack _). vm_compute. exact I.
  - reflexivity.
  - apply Hb. reflexivity.
Defined.

(** X5: the conditional skips (3XNN, 4XNN, and the register compares
    with top nibble 5 and 9) leave the program counter 4 past the
    instruction when their test holds and 2 past it otherwise, modulo
    4096, and change nothing else. *)
Theorem skips_advance_pc rnd s :
  wf s → Core.is_waiting_for_keypress s = false →
  let w := fetched_instruction s in
  let vx := V s (op_x w) in
  let vy := V s (op_y w) in
  let skip_if (test : bool) :=
    Core.run_for_instruction rnd s =
      Ok (tt, Core.with_pc
                ((Core.pc s + (if test then 4 else 2)) mod 4096) s) in
  (op_top w = 3 → skip_if (vx =? op_nn w)) ∧
  (op_top w = 4 → skip_if (negb (vx =? op_nn w))) ∧
  (op_top w = 5 → skip_if (vx =? vy)) ∧
  (op_top w = 9 → skip_if (negb (vx =? vy))).
Proof.
  intros Hwf Hrun w vx vy skip_if. subst w vx vy skip_if.
  assert (∀ test : bool,
    (if test then Core.skip_instr else Core.ret tt) (after_fetch s) =
    Ok (tt, Core.with_pc
              ((Core.pc s + (if test then 4 else 2)) mod 4096) s)) as Hskip.
  { intros [|].
    - unfold Core.skip_instr, Core.pc_get, Core.pc_set. run_monad.
      by rewrite skip_pc.
    - unfold Core.ret. do 2 f_equal.
      rewrite <- after_fetch_pc. reflexivity. }
  repeat split; intros Htop; step_top Hwf Hrun Htop.
  - change (to_uint8 3) with 3. cbv iota. apply Hskip.
  - change (to_uint8 4) with 4. cbv iota. apply Hskip.
  - change (to_uint8 5) with 5. cbv iota. apply Hskip.
  - change (to_uint8 9) with 9. cbv iota. apply Hskip.
Qed.

Lemma skips_advance_pc_witness :
  Core.run_for_instruction 0 (loaded_machine [0x30; 0xFA]) =
    Ok (tt, Core.with_pc 0x20C (loaded_machine [0x30; 0xFA])).
Proof.
  destruct (skips_advance_pc 0 (loaded_machine [0x30; 0xFA])) as [H3 _].
  - apply (bool_decide_unpack _). vm_compute. exact I.
  - reflexivity.
  - apply H3. reflexivity.
Defined.

(** ** Bits of bytes *)

Lemma small_iff_high_bits_clear n z :
  0 ≤ n → 0 ≤ z →
  (z < 2 ^ n ↔ ∀ k, n ≤ k → Z.testbit z k = false).
Proof.
  intros Hn Hz. split.
  - intros Hlt k Hk. destruct (Z.eq_dec z 0) as [->|Hne].
    + apply Z.bits_0.
    + apply Z.bits_above_log2; [lia|].
      assert (Z.log2 z < n) by (apply Z.log2_lt_pow2; lia). lia.
  - intros Hbits.
    assert (z mod 2 ^ n = z) as <-.
    { apply Z.bits_inj'. intros k Hk.
      destruct (Z.lt_ge_cases k n) as [Hlt|Hge].
      - by apply Z.mod_pow2_bits_low.
      - rewrite Z.mod_pow2_bits_high by lia. symmetry. by apply Hbits. }
    apply Z.mod_pos_bound. by apply Z.pow_pos_nonneg.
Qed.

Lemma lor_small n a b :
  0 ≤ n → 0 ≤ a < 2 ^ n → 0 ≤ b < 2 ^ n → 0 ≤ Z.lor a b < 2 ^ n.
Proof.
  intros Hn Ha Hb.
  assert (0 ≤ Z.lor a b) as Hnn by (apply Z.lor_nonneg; lia).
  split; [exact Hnn|]. apply (small_iff_high_bits_clear n); [done..|].
  intros k Hk. rewrite Z.lor_spec.
  rewrite (proj1 (small_iff_high_bits_clear n a Hn ltac:(lia)) ltac:(lia) k Hk).
  by rewrite (proj1 (small_iff_high_bits_clear n b Hn ltac:(lia)) ltac:(lia) k Hk).
Qed.

Lemma lxor_small n a b :
  0 ≤ n → 0 ≤ a < 2 ^ n → 0 ≤ b < 2 ^ n → 0 ≤ Z.lxor a b < 2 ^ n.
Proof.
  intros Hn Ha Hb.
  assert (0 ≤ Z.lxor a b) as Hnn by (apply Z.lxor_nonneg; lia).
  split; [exact Hnn|]. apply (small_iff_high_bits_clear n); [done..|].
  intros k Hk. rewrite Z.lxor_spec.
  rewrite (proj1 (small_iff_high_bits_clear n a Hn ltac:(lia)) ltac:(lia) k Hk).
  by rewrite (proj1 (small_iff_high_bits_clear n b Hn ltac:(lia)) ltac:(lia) k Hk).
Qed.

Lemma land_small n a b : 0 ≤ n → 0 ≤ b < 2 ^ n → 0 ≤ Z.land a b < 2 ^ n.
Proof.
  intros Hn Hb.
  assert (0 ≤ Z.land a b) as Hnn by (apply Z.land_nonneg; lia).
  split; [exact Hnn|]. apply (small_iff_high_bits_clear n); [done..|].
  intros k Hk. rewrite Z.land_spec.
  rewrite (proj1 (small_iff_high_bits_clear n b Hn ltac:(lia)) ltac:(lia) k Hk).
  apply andb_false_r.
Qed.

(** Testing one bit with a mask, as [is_key_pressed] does. *)
Lemma mask_test_is_testbit b k :
  0 ≤ k → negb (Z.land b (Z.shiftl 1 k) =? 0) = Z.testbit b k.
Proof.
  intros Hk. rewrite Z.shiftl_1_l.
  destruct (Z.testbit b k) eqn:Hbit.
  - apply negb_true_iff, Z.eqb_neq. intros Hzero.
    assert (Z.testbit (Z.land b (2 ^ k)) k = true) as Hone
      by (rewrite Z.land_spec, Hbit, Z.pow2_bits_true by lia; reflexivity).
    rewrite Hzero, Z.bits_0 in Hone. discriminate.
  - apply negb_false_iff, Z.eqb_eq. apply Z.bits_inj'. intros j Hj.
    rewrite Z.land_spec, Z.bits_0, Z.pow2_bits_eqb by lia.
    destruct (Z.eqb_spec k j) as [<-|]; [by rewrite Hbit | apply andb_false_r].
Qed.

(** ** Calls *)

(** X6: a call (2NNN) with room on the stack stores the address of the
    next instruction in the slot at the stack pointer, adds 1 to the
    stack pointer and jumps; with sixteen addresses already on the
    stack it stops the program.  A return (00EE) on an empty stack
    stops the program too. *)
Theorem call_stack_bounds rnd s :
  wf s → Core.is_waiting_for_keypress s = false →
  let w := fetched_instruction s in
  (op_top w = 2 → Core.sp s < 16 →
   Core.run_for_instruction rnd s =
     Ok (tt, Core.with_pc (op_nnn w)
               (Core.with_sp (Core.sp s + 1)
                  (Core.with_stack
                     (<[Z.to_nat (Core.sp s) := (Core.pc s + 2) mod 4096]>
                        (Core.stack s)) s)))) ∧
  (op_top w = 2 → Core.sp s = 16 →
   Core.run_for_instruction rnd s = Abort index_out_of_range) ∧
  (w = 0x00EE → Core.sp s = 0 →
   Core.run_for_instruction rnd s = Abort index_out_of_range).
Proof.
  intros Hwf Hrun w. subst w. repeat split.
  - intros Htop Hsp. step_top Hwf Hrun Htop.
    change (to_uint8 2) with 2. cbv iota.
    unfold Core.stack_push, Core.pc_set, Core.STACK_SIZE. run_monad.
    change (Core.sp (after_fetch s)) with (Core.sp s).
    rewrite (ltb_true _ 16 Hsp). cbv beta iota.
    rewrite mask_12_small by apply op_nnn_range.
    rewrite after_fetch_pc. reflexivity.
  - intros Htop Hsp. step_top Hwf Hrun Htop.
    change (to_uint8 2) with 2. cbv iota.
    unfold Core.stack_push, Core.STACK_SIZE. run_monad.
    change (Core.sp (after_fetch s)) with (Core.sp s).
    by rewrite Hsp.
  - intros Hw Hsp. rewrite (step_execute _ _ Hwf Hrun). cbv zeta.
    rewrite Hw. unfold Core.execute.
    change (0x00EE =? 0x00e0) with false.
    change (0x00EE =? 0x00ee) with true. cbv iota.
    unfold Core.stack_pop. run_monad.
    change (Core.sp (after_fetch s)) with (Core.sp s).
    by rewrite Hsp.
Qed.

Lemma call_stack_bounds_witness :
  Core.sp full_stack_machine = 16 ∧
  Core.run_for_instruction 0 full_stack_machine = Abort index_out_of_range.
Proof.
  split; [reflexivity|].
  destruct (call_stack_bounds 0 full_stack_machine) as (_ & Hfull & _).
  - apply (bool_decide_unpack _). vm_compute. exact I.
  - reflexivity.
  - apply Hfull; reflexivity.
Defined.

(** ** Register instructions *)

(** X7: load immediate (6XNN) puts the low byte of the word in VX and
    add immediate (7XNN) adds it to VX modulo 256; no other register,
    VF included, and no other field changes. *)
Theorem immediate_loads_and_adds rnd s :
  wf s → Core.is_waiting_for_keypress s = false →
  let w := fetched_instruction s in
  (op_top w = 6 →
   Core.run_for_instruction rnd s =
     Ok (tt, set_reg (op_x w) (op_nn w) (after_fetch s))) ∧
  (op_top w = 7 →
   Core.run_for_instruction rnd s =
     Ok (tt, set_reg (op_x w) ((V s (op_x w) + op_nn w) mod 256)
               (after_fetch s))).
Proof.
  intros Hwf Hrun w. subst w.
  pose proof (op_x_range (fetched_instruction s)) as Hx.
  split; intros Htop; step_top Hwf Hrun Htop.
  - change (to_uint8 6) with 6. cbv iota.
    unfold Core.reg_write. run_monad.
    rewrite (ltb_true _ 16 (proj2 Hx)). cbv beta iota.
    rewrite to_uint8_small by apply op_nn_range. reflexivity.
  - change (to_uint8 7) with 7. cbv iota.
    unfold Core.reg_write. run_monad.
    rewrite (ltb_true _ 16 (proj2 Hx)). reflexivity.
Qed.

Lemma immediate_loads_and_adds_witness :
  Core.run_for_instruction 0 (loaded_machine [0x70; 0x0A]) =
    Ok (tt, set_reg 0 4 (after_fetch (loaded_machine [0x70; 0x0A]))).
Proof.
  destruct (immediate_loads_and_adds 0 (loaded_machine [0x70; 0x0A]))
    as [_ H7].
  - apply (bool_decide_unpack _). vm_compute. exact I.
  - reflexivity.
  - apply H7. reflexivity.
Defined.

(** Brings a step on a word of the arithmetic group to the branch of
    its low nibble. *)
Ltac step_8 Hwf Hrun Htop Hn N :=
  step_top Hwf Hrun Htop; change (to_uint8 8) with 8; cbv iota;
  rewrite Hn; change (to_uint8 N) with N; cbv iota.

Lemma reg_write_eq index value s :
  0 ≤ index < 16 →
  Core.reg_write index value s = Ok (tt, set_reg index (to_uint8 value) s).
Proof.
  intros Hi. unfold Core.reg_write. run_monad.
  by rewrite (ltb_true _ 16 (proj2 Hi)).
Qed.

(** X8: copy, or, and, xor (8XY0 to 8XY3) put VY, VX or VY, VX and VY,
    VX xor VY in VX and change no other register, VF included. *)
Theorem register_logic rnd s :
  wf s → Core.is_waiting_for_keypress s = false →
  let w := fetched_instruction s in
  let vx := V s (op_x w) in
  let vy := V s (op_y w) in
  let writes (value : Z) :=
    Core.run_for_instruction rnd s =
      Ok (tt, set_reg (op_x w) value (after_fetch s)) ∧ uint8 value in
  op_top w = 8 →
  (op_n w = 0 → writes vy) ∧
  (op_n w = 1 → writes (Z.lor vx vy)) ∧
  (op_n w = 2 → writes (Z.land vx vy)) ∧
  (op_n w = 3 → writes (Z.lxor vx vy)).
Proof.
  intros Hwf Hrun w vx vy writes Htop. subst w vx vy writes.
  pose proof (op_x_range (fetched_instruction s)) as Hx.
  pose proof (V_range s (op_x (fetched_instruction s)) Hwf) as Hvx.
  pose proof (V_range s (op_y (fetched_instruction s)) Hwf) as Hvy.
  unfold uint8 in *.
  repeat split; try lia.
  - step_8 Hwf Hrun Htop H 0.
    by rewrite reg_write_eq, to_uint8_small.
  - step_8 Hwf Hrun Htop H 1.
    rewrite reg_write_eq, to_uint8_small; [done | | done].
    apply (lor_small 8); lia.
  - apply (lor_small 8); lia.
  - apply (lor_small 8); lia.
  - step_8 Hwf Hrun Htop H 2.
    rewrite reg_write_eq, to_uint8_small; [done | | done].
    apply (land_small 8); lia.
  - apply (land_small 8); lia.
  - apply (land_small 8); lia.
  - step_8 Hwf Hrun Htop H 3.
    rewrite reg_write_eq, to_uint8_small; [done | | done].
    apply (lxor_small 8); lia.
  - apply (lxor_small 8); lia.
  - apply (lxor_small 8); lia.
Qed.

Lemma register_logic_witness :
  Core.run_for_instruction 0 (loaded_machine [0x80; 0x13]) =
    Ok (tt, set_reg 0 0xF0 (after_fetch (loaded_machine [0x80; 0x13]))).
Proof.
  destruct (register_logic 0 (loaded_machine [0x80; 0x13]))
    as (_ & _ & _ & Hxor).
  - apply (bool_decide_unpack _). vm_compute. exact I.
  - reflexivity.
  - reflexivity.
  - apply Hxor. reflexivity.
Defined.

Lemma vf_set_eq value s :
  Core.vf_set value s = Ok (tt, set_reg 15 (of_bool value) s).
Proof. reflexivity. Qed.

Lemma V_set_reg_eq r val s :
  0 ≤ r < 16 → length (Core.v s) = 16%nat → V (set_reg r val s) r = val.
Proof.
  intros Hr Hlen. unfold V, set_reg. cbn [Core.v Core.with_v].
  apply at_index_insert_eq; lia.
Qed.

Lemma V_set_reg_ne r j val s :
  0 ≤ r → 0 ≤ j → j ≠ r → V (set_reg r val s) j = V s j.
Proof.
  intros Hr Hj Hne. unfold V, set_reg. cbn [Core.v Core.with_v].
  by apply at_index_insert_ne.
Qed.

Lemma set_reg_length r val s :
  length (Core.v (set_reg r val s)) = length (Core.v s).
Proof. unfold set_reg. cbn [Core.v Core.with_v]. apply length_insert. Qed.

(** X9: add with carry (8XY4) leaves the sum modulo 256 in VX and then
    writes the carry in VF: VF is 1 exactly when the sum exceeds 255;
    when X is 15 the carry is what VF holds afterwards. *)
Theorem add_sets_carry rnd s :
  wf s → Core.is_waiting_for_keypress s = false →
  let w := fetched_instruction s in
  let vx := V s (op_x w) in
  let vy := V s (op_y w) in
  op_top w = 8 → op_n w = 4 →
  ∃ s', Core.run_for_instruction rnd s = Ok (tt, s') ∧
        s' = set_reg 15 (if 255 <? vx + vy then 1 else 0)
               (set_reg (op_x w) ((vx + vy) mod 256) (after_fetch s)) ∧
        (V s' 15 = 1 ↔ 255 < vx + vy) ∧
        (V s' 15 = 0 ↔ vx + vy ≤ 255) ∧
        (op_x w ≠ 15 → V s' (op_x w) = (vx + vy) mod 256).
Proof.
  intros Hwf Hrun w vx vy Htop Hn. subst w vx vy.
  pose proof (op_x_range (fetched_instruction s)) as Hx.
  pose proof (V_range s (op_x (fetched_instruction s)) Hwf) as Hvx.
  pose proof (V_range s (op_y (fetched_instruction s)) Hwf) as Hvy.
  assert (length (Core.v s) = 16%nat) as Hlen by (by wf_split Hwf).
  unfold uint8 in *.
  eexists. split; [|split; [reflexivity|]].
  - step_8 Hwf Hrun Htop Hn 4.
    rewrite (bind_eq _ _ _ _ _ (reg_write_eq _ _ _ Hx)), vf_set_eq.
    unfold to_uint32. rewrite (Z.mod_small (_ + _) 4294967296) by lia.
    reflexivity.
  - rewrite V_set_reg_eq by (rewrite ?set_reg_length; done || lia).
    destruct (Z.ltb_spec 255
                (V s (op_x (fetched_instruction s)) +
                 V s (op_y (fetched_instruction s)))).
    + repeat split; intros; try lia.
      rewrite V_set_reg_ne by lia. apply V_set_reg_eq; done.
    + repeat split; intros; try lia.
      rewrite V_set_reg_ne by lia. apply V_set_reg_eq; done.
Qed.

Lemma add_sets_carry_witness :
  ∃ s', Core.run_for_instruction 0 (loaded_machine [0x80; 0x14]) = Ok (tt, s') ∧
        V s' 0 = 4 ∧ V s' 15 = 1.
Proof.
  destruct (add_sets_carry 0 (loaded_machine [0x80; 0x14]))
    as (s' & Hrun & _ & Hc & _ & Hx).
  - apply (bool_decide_unpack _). vm_compute. exact I.
  - reflexivity.
  - reflexivity.
  - reflexivity.
  - exists s'. split; [exact Hrun|]. split.
    + apply Hx. vm_compute. discriminate.
    + apply Hc. vm_compute. reflexivity.
Defined.

(** X10: shift right (8XY6) halves VX and then writes its old bit 0 in
    VF; shift left (8XYE) doubles VX modulo 256 and then writes its
    old bit 7 in VF.  VY is not read. *)
Theorem shifts_move_the_end_bit_to_vf rnd s :
  wf s → Core.is_waiting_for_keypress s = false →
  let w := fetched_instruction s in
  let vx := V s (op_x w) in
  op_top w = 8 →
  (op_n w = 6 →
   Core.run_for_instruction rnd s =
     Ok (tt, set_reg 15 (vx mod 2)
               (set_reg (op_x w) (vx / 2) (after_fetch s)))) ∧
  (op_n w = 0xE →
   Core.run_for_instruction rnd s =
     Ok (tt, set_reg 15 (vx / 128)
               (set_reg (op_x w) ((2 * vx) mod 256) (after_fetch s)))).
Proof.
  intros Hwf Hrun w vx Htop. subst w vx.
  pose proof (op_x_range (fetched_instruction s)) as Hx.
  pose proof (V_range s (op_x (fetched_instruction s)) Hwf) as Hvx.
  unfold uint8 in *.
  set (vx := V s (op_x (fetched_instruction s))) in *.
  split; intros Hn.
  - step_8 Hwf Hrun Htop Hn 6.
    rewrite (bind_eq _ _ _ _ _ (reg_write_eq _ _ _ Hx)), vf_set_eq.
    fold vx. rewrite Z.shiftr_div_pow2 by lia. change (2 ^ 1) with 2.
    rewrite to_uint8_small
      by (split; [apply Z.div_pos; lia | apply Z.div_lt_upper_bound; lia]).
    change 1 with (Z.ones 1) at 1. rewrite Z.land_ones by lia.
    change (2 ^ 1) with 2.
    assert (0 ≤ vx mod 2 < 2) as Hbit by (apply Z.mod_pos_bound; lia).
    replace (of_bool (negb (vx mod 2 =? 0))) with (vx mod 2); [done|].
    destruct (Z.eqb_spec (vx mod 2) 0) as [->|]; simpl; lia.
  - step_8 Hwf Hrun Htop Hn 0xE.
    rewrite (bind_eq _ _ _ _ _ (reg_write_eq _ _ _ Hx)), vf_set_eq.
    fold vx. rewrite Z.shiftr_div_pow2, Z.shiftl_mul_pow2 by lia.
    change (2 ^ 7) with 128. change (2 ^ 1) with 2.
    rewrite (Z.mul_comm vx 2). unfold to_uint8.
    assert (0 ≤ vx / 128 < 2) as Hbit
      by (split; [apply Z.div_pos; lia | apply Z.div_lt_upper_bound; lia]).
    replace (of_bool (negb (vx / 128 =? 0))) with (vx / 128); [done|].
    destruct (Z.eqb_spec (vx / 128) 0) as [->|]; simpl; lia.
Qed.

Lemma shifts_move_the_end_bit_to_vf_witness :
  Core.run_for_instruction 0 (loaded_machine [0x80; 0x0E]) =
    Ok (tt, set_reg 15 1
              (set_reg 0 0xF4 (after_fetch (loaded_machine [0x80; 0x0E])))).
Proof.
  destruct (shifts_move_the_end_bit_to_vf 0 (loaded_machine [0x80; 0x0E]))
    as [_ Hl].
  - apply (bool_decide_unpack _). vm_compute. exact I.
  - reflexivity.
  - reflexivity.
  - apply Hl. reflexivity.
Defined.

(** ** The index register, the timers and the random byte *)

(** Brings a step on a word of the misc group to the branch of its
    low byte. *)
Ltac step_F Hwf Hrun Htop Hnn N :=
  step_top Hwf Hrun Htop; change (to_uint8 0xF) with 0xF; cbv iota;
  rewrite Hnn; change (to_uint8 N) with N; cbv iota.

(** X11: set index (ANNN) loads I with the low 12 bits of the word,
    add to index (FX1E) adds VX to I modulo 4096 without touching VF,
    and glyph address (FX29) loads I with five times VX, below 1280. *)
Theorem index_register_instructions rnd s :
  wf s → Core.is_waiting_for_keypress s = false →
  let w := fetched_instruction s in
  let vx := V s (op_x w) in
  (op_top w = 0xA →
   Core.run_for_instruction rnd s =
     Ok (tt, Core.with_i (op_nnn w) (after_fetch s))) ∧
  (op_top w = 0xF → op_nn w = 0x1E →
   Core.run_for_instruction rnd s =
     Ok (tt, Core.with_i ((Core.i s + vx) mod 4096) (after_fetch s))) ∧
  (op_top w = 0xF → op_nn w = 0x29 →
   Core.run_for_instruction rnd s =
     Ok (tt, Core.with_i (5 * vx) (after_fetch s)) ∧ 5 * vx < 1280).
Proof.
  intros Hwf Hrun w vx. subst w vx.
  pose proof (V_range s (op_x (fetched_instruction s)) Hwf) as Hvx.
  unfold uint8 in Hvx.
  split; [|split].
  - intros Htop. step_top Hwf Hrun Htop.
    change (to_uint8 0xA) with 0xA. cbv iota.
    unfold Core.i_set. run_monad.
    by rewrite mask_12_small by apply op_nnn_range.
  - intros Htop Hnn. step_F Hwf Hrun Htop Hnn 0x1E.
    unfold Core.i_set. run_monad. by rewrite mask_12_mod.
  - intros Htop Hnn. split; [|lia]. step_F Hwf Hrun Htop Hnn 0x29.
    unfold Core.i_set. run_monad.
    rewrite mask_12_small by lia. by rewrite Z.mul_comm.
Qed.

Lemma index_register_instructions_witness :
  Core.run_for_instruction 0 (loaded_machine [0xF1; 0x29]) =
    Ok (tt, Core.with_i 50 (after_fetch (loaded_machine [0xF1; 0x29]))).
Proof.
  destruct (index_register_instructions 0 (loaded_machine [0xF1; 0x29]))
    as (_ & _ & Hglyph).
  - apply (bool_decide_unpack _). vm_compute. exact I.
  - reflexivity.
  - apply Hglyph; reflexivity.
Defined.

(** X12: set delay timer (FX15) and set sound timer (FX18) copy VX
    into that timer only, and read delay timer (FX07) copies the delay
    timer into VX only. *)
Theorem timer_instructions rnd s :
  wf s → Core.is_waiting_for_keypress s = false →
  let w := fetched_instruction s in
  let vx := V s (op_x w) in
  op_top w = 0xF →
  (op_nn w = 0x15 →
   Core.run_for_instruction rnd s =
     Ok (tt, Core.with_timer_delay vx (after_fetch s))) ∧
  (op_nn w = 0x18 →
   Core.run_for_instruction rnd s =
     Ok (tt, Core.with_timer_sound vx (after_fetch s))) ∧
  (op_nn w = 0x07 →
   Core.run_for_instruction rnd s =
     Ok (tt, set_reg (op_x w) (Core.timer_delay s) (after_fetch s))).
Proof.
  intros Hwf Hrun w vx Htop. subst w vx.
  pose proof (op_x_range (fetched_instruction s)) as Hx.
  split; [|split]; intros Hnn.
  - by step_F Hwf Hrun Htop Hnn 0x15.
  - by step_F Hwf Hrun Htop Hnn 0x18.
  - step_F Hwf Hrun Htop Hnn 0x07.
    rewrite (bind_eq _ _ _ (Core.timer_delay s) (after_fetch s)) by done.
    rewrite reg_write_eq by done.
    rewrite to_uint8_small; [done|]. by wf_split Hwf.
Qed.

Lemma timer_instructions_witness :
  Core.run_for_instruction 0 (loaded_machine [0xF0; 0x18]) =
    Ok (tt, Core.with_timer_sound 250
              (after_fetch (loaded_machine [0xF0; 0x18]))).
Proof.
  destruct (timer_instructions 0 (loaded_machine [0xF0; 0x18]))
    as (_ & Hsound & _).
  - apply (bool_decide_unpack _). vm_compute. exact I.
  - reflexivity.
  - reflexivity.
  - apply Hsound. reflexivity.
Defined.

Lemma land_le a b : 0 ≤ b → Z.land a b ≤ b.
Proof.
  intros Hb.
  assert (0 ≤ Z.ldiff b a) as Hd by (apply Z.ldiff_nonneg; lia).
  assert (Z.ldiff b a + Z.land b a = b) as Hsum.
  { assert (Z.land (Z.ldiff b a) (Z.land b a) = 0) as Hdisjoint.
    { apply Z.bits_inj'. intros k Hk.
      rewrite !Z.land_spec, Z.ldiff_spec, Z.bits_0.
      destruct (Z.testbit b k), (Z.testbit a k); reflexivity. }
    rewrite Z.add_nocarry_lxor, Z.lxor_lor by exact Hdisjoint.
    apply Z.lor_ldiff_and. }
  rewrite (Z.land_comm a b). lia.
Qed.

(** X13: random (CXNN) puts in VX the value returned by the generator
    masked with the low byte of the word: every bit clear in the mask
    is clear in VX, so VX never exceeds the mask. *)
Theorem random_is_masked rnd s :
  wf s → Core.is_waiting_for_keypress s = false →
  let w := fetched_instruction s in
  op_top w = 0xC →
  Core.run_for_instruction rnd s =
    Ok (tt, set_reg (op_x w) (Z.land rnd (op_nn w)) (after_fetch s)) ∧
  0 ≤ Z.land rnd (op_nn w) ≤ op_nn w ∧
  (∀ k, Z.testbit (op_nn w) k = false →
        Z.testbit (Z.land rnd (op_nn w)) k = false).
Proof.
  intros Hwf Hrun w Htop. subst w.
  pose proof (op_x_range (fetched_instruction s)) as Hx.
  pose proof (op_nn_range (fetched_instruction s)) as Hnn.
  assert (∀ k, Z.testbit (op_nn (fetched_instruction s)) k = false →
               Z.testbit (Z.land rnd (op_nn (fetched_instruction s))) k = false)
    as Hbits.
  { intros k Hk. destruct (Z.lt_ge_cases k 0) as [Hneg|Hpos].
    - by apply Z.testbit_neg_r.
    - rewrite Z.land_spec, Hk. apply andb_false_r. }
  assert (0 ≤ Z.land rnd (op_nn (fetched_instruction s))
          ≤ op_nn (fetched_instruction s)) as Hle.
  { assert (0 ≤ Z.land rnd (op_nn (fetched_instruction s))) as Hnonneg
      by (apply Z.land_nonneg; lia).
    split; [exact Hnonneg|]. apply land_le. lia. }
  split; [|split; [exact Hle | exact Hbits]].
  step_top Hwf Hrun Htop. change (to_uint8 0xC) with 0xC. cbv iota.
  rewrite reg_write_eq by done. rewrite to_uint8_small by lia. reflexivity.
Qed.

Lemma random_is_masked_witness :
  Core.run_for_instruction 0x5A5A (loaded_machine [0xC2; 0x0F]) =
    Ok (tt, set_reg 2 0x0A (after_fetch (loaded_machine [0xC2; 0x0F]))).
Proof.
  destruct (random_is_masked 0x5A5A (loaded_machine [0xC2; 0x0F]))
    as (Hrun & _).
  - apply (bool_decide_unpack _). vm_compute. exact I.
  - reflexivity.
  - reflexivity.
  - exact Hrun.
Defined.

(** ** The keypad *)

Lemma skip_or_not (test : bool) s :
  (if test then Core.skip_instr else Core.ret tt) (after_fetch s) =
  Ok (tt, Core.with_pc ((Core.pc s + (if test then 4 else 2)) mod 4096) s).
Proof.
  destruct test.
  - unfold Core.skip_instr, Core.pc_get, Core.pc_set. run_monad.
    by rewrite skip_pc.
  - unfold Core.ret. do 2 f_equal. rewrite <- after_fetch_pc. reflexivity.
Qed.

Lemma key_down_testbit s vx :
  key_down s vx = Z.testbit (Hexpad.bitmap (Core.hexpad s)) (vx mod 16).
Proof.
  unfold key_down. change 0xf with (Z.ones 4). rewrite Z.land_ones by lia.
  apply mask_test_is_testbit. apply Z.mod_pos_bound. lia.
Qed.

(** X14: skip if key pressed (EX9E) skips the next instruction exactly
    when the latch bit numbered by the low four bits of VX is set, and
    skip if key not pressed (EXA1) exactly when it is clear; nothing
    but the program counter changes. *)
Theorem key_skips_test_the_latch rnd s :
  wf s → Core.is_waiting_for_keypress s = false →
  let w := fetched_instruction s in
  let pressed :=
    Z.testbit (Hexpad.bitmap (Core.hexpad s)) (V s (op_x w) mod 16) in
  let skip_if (test : bool) :=
    Core.run_for_instruction rnd s =
      Ok (tt, Core.with_pc
                ((Core.pc s + (if test then 4 else 2)) mod 4096) s) in
  op_top w = 0xE →
  (op_nn w = 0x9E → skip_if pressed) ∧
  (op_nn w = 0xA1 → skip_if (negb pressed)).
Proof.
  intros Hwf Hrun w pressed skip_if Htop. subst w pressed skip_if.
  split; intros Hnn.
  - step_top Hwf Hrun Htop. change (to_uint8 0xE) with 0xE. cbv iota.
    rewrite Hnn. change (to_uint8 0x9E) with 0x9E. cbv iota.
    rewrite key_down_testbit. apply skip_or_not.
  - step_top Hwf Hrun Htop. change (to_uint8 0xE) with 0xE. cbv iota.
    rewrite Hnn. change (to_uint8 0xA1) with 0xA1. cbv iota.
    rewrite key_down_testbit. apply skip_or_not.
Qed.

Lemma key_skips_test_the_latch_witness :
  Core.run_for_instruction 0 (loaded_machine [0xE0; 0xA1]) =
    Ok (tt, Core.with_pc 0x20C (loaded_machine [0xE0; 0xA1])).
Proof.
  destruct (key_skips_test_the_latch 0 (loaded_machine [0xE0; 0xA1]))
    as [_ Hnot].
  - apply (bool_decide_unpack _). vm_compute. exact I.
  - reflexivity.
  - reflexivity.
  - apply Hnot. reflexivity.
Defined.

(** X15: a keypad update while the core waits that sets no new bit
    (keys released, or the same keys held) leaves the core waiting and
    only replaces the latch. *)
Theorem release_does_not_end_the_wait bitmap s :
  Core.is_waiting_for_keypress s = true →
  0 ≤ bitmap < 65536 →
  Z.land bitmap (Z.lnot (Hexpad.bitmap (Core.hexpad s))) = 0 →
  Core.update_hexpad_bitmap bitmap s =
    Ok (tt, Core.with_hexpad (Hexpad.mk bitmap) s).
Proof.
  intros Hw Hb Hnew.
  unfold Core.update_hexpad_bitmap, Hexpad.update_hexpad.
  run_monad. cbv beta iota zeta.
  rewrite to_uint16_idemp, (to_uint16_small bitmap Hb), diff_is_newly_set.
  rewrite Hnew, Hw. reflexivity.
Qed.

Lemma release_does_not_end_the_wait_witness :
  Core.update_hexpad_bitmap 0 waiting_machine =
    Ok (tt, Core.with_hexpad (Hexpad.mk 0) waiting_machine).
Proof.
  apply (release_does_not_end_the_wait 0 waiting_machine).
  - reflexivity.
  - lia.
  - reflexivity.
Defined.

(** X16: wait for key (FX0A) suspends the core with X as the target;
    any number of steps then changes nothing; and the first keypad
    update in which exactly key [k] goes down resumes the core with
    [k] in VX, the program counter past the FX0A. *)
Theorem wait_for_key_cycle rnd rand instructions k s :
  wf s → Core.is_waiting_for_keypress s = false →
  let w := fetched_instruction s in
  let latch := Hexpad.bitmap (Core.hexpad s) in
  op_top w = 0xF → op_nn w = 0x0A →
  0 ≤ k < 16 → Z.testbit latch k = false →
  ∃ s1 s2,
    Core.run_for_instruction rnd s = Ok (tt, s1) ∧
    s1 = Core.with_keypress_index_register (op_x w)
           (Core.with_is_waiting_for_keypress true (after_fetch s)) ∧
    Core.run_for_instructions rand instructions s1 = Ok (tt, s1) ∧
    Core.update_hexpad_bitmap (Z.lor latch (2 ^ k)) s1 = Ok (tt, s2) ∧
    s2 = Core.with_hexpad (Hexpad.mk (Z.lor latch (2 ^ k)))
           (Core.with_keypress_index_register (op_x w)
              (set_reg (op_x w) k (after_fetch s))).
Proof.
  intros Hwf Hrun w latch Htop Hnn Hk Hbit. subst w latch.
  set (w := fetched_instruction s) in *.
  set (latch := Hexpad.bitmap (Core.hexpad s)) in *.
  set (s1 := Core.with_keypress_index_register (op_x w)
               (Core.with_is_waiting_for_keypress true (after_fetch s))).
  pose proof (op_x_range w) as Hx.
  assert (Core.run_for_instruction rnd s = Ok (tt, s1)) as Hstep.
  { subst w. by step_F Hwf Hrun Htop Hnn 0x0A. }
  assert (wf s1) as Hwf1 by exact (run_for_instruction_wf _ _ _ _ Hwf Hstep).
  assert (0 < 2 ^ k < 65536) as Hpow.
  { split; [apply Z.pow_pos_nonneg; lia|].
    change 65536 with (2 ^ 16). apply Z.pow_lt_mono_r; lia. }
  assert (0 ≤ latch < 65536) as Hlatch by (subst latch; by wf_split Hwf).
  assert (0 ≤ Z.lor latch (2 ^ k) < 65536) as Hb
    by (apply (lor_small 16); lia).
  assert (Z.land (Z.lor latch (2 ^ k)) (Z.lnot latch) = 2 ^ k) as Hnew.
  { apply Z.bits_inj'. intros j Hj.
    rewrite Z.land_spec, Z.lor_spec, Z.lnot_spec, Z.pow2_bits_eqb by lia.
    destruct (Z.eqb_spec k j) as [<-|].
    - by rewrite Hbit.
    - by destruct (Z.testbit latch j). }
  exists s1. eexists. split; [exact Hstep|]. split; [reflexivity|].
  split.
  { induction instructions as [|n IH]; simpl; [done|].
    by rewrite (bind_eq _ _ _ _ _ (run_for_instruction_waiting _ s1 eq_refl)). }
  split; [|reflexivity].
  rewrite (update_hexpad_bitmap_resolves s1 _ Hwf1 eq_refl Hb).
  - change (Hexpad.bitmap (Core.hexpad s1)) with latch.
    rewrite Hnew, Z.log2_pow2 by lia. subst s1.
    unfold set_reg, after_fetch, Core.with_hexpad, Core.with_v, Core.with_pc,
      Core.with_is_waiting_for_keypress, Core.with_keypress_index_register.
    cbn [Core.v Core.pc Core.i Core.main_memory Core.sp Core.stack
         Core.timer_sound Core.timer_delay Core.fb Core.hexpad
         Core.is_waiting_for_keypress Core.keypress_index_register].
    by rewrite Hrun.
  - change (Hexpad.bitmap (Core.hexpad s1)) with latch. rewrite Hnew. lia.
Qed.

Lemma wait_for_key_cycle_witness :
  ∃ s1 s2,
    Core.run_for_instruction 0 (loaded_machine [0xF5; 0x0A]) = Ok (tt, s1) ∧
    Core.is_waiting_for_keypress s1 = true ∧
    Core.run_for_instructions (λ _, 0) 60 s1 = Ok (tt, s1) ∧
    Core.update_hexpad_bitmap 0x0200 s1 = Ok (tt, s2) ∧
    Core.is_waiting_for_keypress s2 = false ∧ V s2 5 = 9.
Proof.
  destruct (wait_for_key_cycle 0 (λ _, 0) 60 9 (loaded_machine [0xF5; 0x0A]))
    as (s1 & s2 & Hstep & -> & Hidle & Hkey & ->).
  - apply (bool_decide_unpack _). vm_compute. exact I.
  - reflexivity.
  - reflexivity.
  - reflexivity.
  - lia.
  - reflexivity.
  - eexists. eexists. split; [exact Hstep|]. split; [reflexivity|].
    split; [exact Hidle|]. split; [exact Hkey|]. split; reflexivity.
Defined.

(** ** Memory instructions *)

Lemma mem_write_abort address value s :
  4096 ≤ address < 65536 →
  Core.mem_write address value s = Abort index_out_of_range.
Proof.
  intros Ha. unfold Core.mem_write. rewrite to_uint16_small by lia.
  run_monad. by rewrite (ltb_false address 4096) by lia.
Qed.

Lemma mem_read_eq address s :
  0 ≤ address < 4096 → Core.mem_read address s = Ok (mem s address, s).
Proof.
  intros Ha. unfold Core.mem_read. rewrite to_uint16_small by lia.
  run_monad. by rewrite (ltb_true address 4096) by lia.
Qed.

Lemma mem_read_abort address s :
  4096 ≤ address < 65536 →
  Core.mem_read address s = Abort index_out_of_range.
Proof.
  intros Ha. unfold Core.mem_read. rewrite to_uint16_small by lia.
  run_monad. by rewrite (ltb_false address 4096) by lia.
Qed.

Lemma reg_read_eq index s :
  0 ≤ index < 16 → Core.reg_read index s = Ok (V s index, s).
Proof.
  intros Hi. unfold Core.reg_read. run_monad.
  by rewrite (ltb_true index 16) by lia.
Qed.

(** X17: decimal decomposition (FX33) with I + 2 inside memory writes
    the hundreds, tens and units digits of VX at I, I + 1 and I + 2,
    so that 100 a + 10 b + c is VX again, and changes no other byte;
    when I + 2 falls outside memory the program stops. *)
Theorem decimal_digits_of_vx rnd s :
  wf s → Core.is_waiting_for_keypress s = false →
  let w := fetched_instruction s in
  let vx := V s (op_x w) in
  let i := Core.i s in
  op_top w = 0xF → op_nn w = 0x33 →
  (i + 2 < 4096 →
   ∃ s', Core.run_for_instruction rnd s = Ok (tt, s') ∧
         s' = Core.with_main_memory (Core.main_memory s') (after_fetch s) ∧
         mem s' i = vx / 100 ∧
         mem s' (i + 1) = (vx / 10) mod 10 ∧
         mem s' (i + 2) = vx mod 10 ∧
         100 * mem s' i + 10 * mem s' (i + 1) + mem s' (i + 2) = vx ∧
         (∀ a, 0 ≤ a → a ≠ i → a ≠ i + 1 → a ≠ i + 2 → mem s' a = mem s a)) ∧
  (4096 ≤ i + 2 →
   Core.run_for_instruction rnd s = Abort index_out_of_range).
Proof.
  intros Hwf Hrun w vx i Htop Hnn. subst w vx i.
  pose proof (V_range s (op_x (fetched_instruction s)) Hwf) as Hvx.
  remember (V s (op_x (fetched_instruction s))) as vx eqn:Evx.
  assert (0 ≤ Core.i s < 4096 ∧ length (Core.main_memory s) = 4096%nat)
    as [Hi Hlen] by (by wf_split Hwf).
  unfold uint8 in Hvx.
  assert (0 ≤ vx / 100 < 10) as H2
    by (split; [apply Z.div_pos; lia | apply Z.div_lt_upper_bound; lia]).
  assert (0 ≤ (vx / 10) mod 10 < 10) as H1 by (apply Z.mod_pos_bound; lia).
  assert (0 ≤ vx mod 10 < 10) as H0 by (apply Z.mod_pos_bound; lia).
  assert (to_uint8 (to_uint8 ((vx / 100) mod 10)) = vx / 100) as E2.
  { unfold to_uint8. rewrite (Z.mod_small (vx / 100) 10) by lia.
    by rewrite !(Z.mod_small (vx / 100) 256) by lia. }
  assert (to_uint8 (to_uint8 ((vx / 10) mod 10)) = (vx / 10) mod 10) as E1
    by (unfold to_uint8; by rewrite !(Z.mod_small ((vx / 10) mod 10) 256) by lia).
  assert (to_uint8 (to_uint8 (vx mod 10)) = vx mod 10) as E0
    by (unfold to_uint8; by rewrite !(Z.mod_small (vx mod 10) 256) by lia).
  split; intros Hbound.
  - eexists. split.
    + step_F Hwf Hrun Htop Hnn 0x33. rewrite <- Evx.
      change (Core.i (after_fetch s)) with (Core.i s).
      rewrite (bind_eq _ _ _ _ _ (mem_write_eq (Core.i s) _ _ ltac:(lia))).
      rewrite (bind_eq _ _ _ _ _ (mem_write_eq (Core.i s + 1) _ _ ltac:(lia))).
      rewrite (mem_write_eq (Core.i s + 2)) by lia.
      rewrite E2, E1, E0. reflexivity.
    + cbn [Core.main_memory Core.with_main_memory]. unfold mem.
      cbn [Core.main_memory Core.with_main_memory after_fetch Core.with_pc].
      split; [reflexivity|].
      assert (∀ (l : list Z) k x, length (<[k:=x]> l) = length l) as Hins
        by (intros; apply length_insert).
      rewrite (at_index_insert_ne _ (Core.i s + 2) (Core.i s)) by lia.
      rewrite (at_index_insert_ne _ (Core.i s + 1) (Core.i s)) by lia.
      rewrite (at_index_insert_eq _ (Core.i s)) by lia.
      rewrite (at_index_insert_ne _ (Core.i s + 2) (Core.i s + 1)) by lia.
      rewrite (at_index_insert_eq _ (Core.i s + 1))
        by (rewrite ?Hins; lia).
      rewrite (at_index_insert_eq _ (Core.i s + 2))
        by (rewrite ?Hins; lia).
      repeat split; try reflexivity.
      * pose proof (Z.div_mod vx 10 ltac:(lia)).
        pose proof (Z.div_mod (vx / 10) 10 ltac:(lia)).
        rewrite Z.div_div in * by lia. change (10 * 10) with 100 in *. lia.
      * intros a Ha Ha0 Ha1 Ha2.
        by rewrite !at_index_insert_ne by lia.
  - step_F Hwf Hrun Htop Hnn 0x33. rewrite <- Evx.
    change (Core.i (after_fetch s)) with (Core.i s).
    destruct (Z.eq_dec (Core.i s) 4095) as [E|E].
    + rewrite (bind_eq _ _ _ _ _ (mem_write_eq (Core.i s) _ _ ltac:(lia))).
      unfold mbind, Core.M_bind, Core.bind.
      by rewrite (mem_write_abort (Core.i s + 1)) by lia.
    + rewrite (bind_eq _ _ _ _ _ (mem_write_eq (Core.i s) _ _ ltac:(lia))).
      rewrite (bind_eq _ _ _ _ _ (mem_write_eq (Core.i s + 1) _ _ ltac:(lia))).
      by rewrite (mem_write_abort (Core.i s + 2)) by lia.
Qed.

Lemma decimal_digits_of_vx_witness :
  ∃ s', Core.run_for_instruction 0 (loaded_machine [0xF0; 0x33]) = Ok (tt, s') ∧
        mem s' 0x300 = 2 ∧ mem s' 0x301 = 5 ∧ mem s' 0x302 = 0.
Proof.
  destruct (decimal_digits_of_vx 0 (loaded_machine [0xF0; 0x33])) as [Hin _].
  - apply (bool_decide_unpack _). vm_compute. exact I.
  - reflexivity.
  - reflexivity.
  - reflexivity.
  - destruct Hin as (s' & Hrun & _ & H2 & H1 & H0 & _); [vm_compute; reflexivity|].
    exists s'. split; [exact Hrun|]. split; [exact H2|]. split; [exact H1|].
    exact H0.
Defined.

(** A loop stops the program at its first iteration that does, when
    the iterations before it return. *)
Lemma for_loop_abort_at {A} (body : Z → A → Core.M A) f :
  ∀ (count : nat) d from acc s,
    (d < count)%nat →
    (∀ k acc s, from ≤ k < from + Z.of_nat d →
                ∃ acc' s', body k acc s = Ok (acc', s')) →
    (∀ acc s, body (from + Z.of_nat d) acc s = Abort f) →
    Core.for_loop count from body acc s = Abort f.
Proof.
  induction count as [|count IH]; intros d from acc s Hd Hok Hbad; [lia|].
  simpl. destruct d as [|d].
  - unfold mbind, Core.M_bind, Core.bind.
    specialize (Hbad acc s). rewrite Z.add_0_r in Hbad. by rewrite Hbad.
  - destruct (Hok from acc s ltac:(lia)) as (acc1 & s1 & H1).
    rewrite (bind_eq _ _ _ _ _ H1). apply (IH d); [lia | |].
    + intros k acc2 s2 Hk. apply Hok. lia.
    + intros acc2 s2. replace (from + 1 + Z.of_nat d)
        with (from + Z.of_nat (S d)) by lia. apply Hbad.
Qed.

Lemma with_main_memory_same s :
  Core.with_main_memory (Core.main_memory s) s = s.
Proof. by destruct s. Qed.

Lemma with_v_same s : Core.with_v (Core.v s) s = s.
Proof. by destruct s. Qed.

(** The loop of FX55 from index [from]. *)
Lemma store_loop i0 :
  ∀ (count : nat) from s,
    0 ≤ from → 0 ≤ i0 → from + Z.of_nat count ≤ 16 →
    i0 + from + Z.of_nat count ≤ 4096 →
    length (Core.main_memory s) = 4096%nat →
    ∃ m', Core.for_loop count from
            (λ j _, vj ← Core.reg_read j; Core.mem_write (i0 + j) vj) tt s
          = Ok (tt, Core.with_main_memory m' s) ∧
          length m' = 4096%nat ∧
          ∀ a, 0 ≤ a →
               at_index m' a =
               if (i0 + from <=? a) && (a <? i0 + from + Z.of_nat count)
               then to_uint8 (V s (a - i0)) else mem s a.
Proof.
  induction count as [|count IH]; intros from s Hfrom Hi0 Hreg Hmem Hlen.
  - exists (Core.main_memory s). simpl. unfold Core.ret.
    rewrite with_main_memory_same. split; [done|]. split; [done|].
    intros a Ha. replace ((i0 + from <=? a) && (a <? i0 + from + Z.of_nat 0))
      with false; [done|]. symmetry. apply andb_false_iff.
    destruct (Z.leb_spec (i0 + from) a); [right; apply Z.ltb_ge; lia | by left].
  - simpl.
    rewrite (bind_eq _ _ s tt
               (Core.with_main_memory
                  (<[Z.to_nat (i0 + from) := to_uint8 (V s from)]>
                     (Core.main_memory s)) s)).
    2:{ rewrite (bind_eq _ _ _ _ _ (reg_read_eq from s ltac:(lia))).
        apply mem_write_eq. lia. }
    destruct (IH (from + 1)
                (Core.with_main_memory
                   (<[Z.to_nat (i0 + from) := to_uint8 (V s from)]>
                      (Core.main_memory s)) s))
      as (m' & Hloop & Hlen' & Hm'); [lia | lia | lia | lia | |].
    { cbn [Core.main_memory Core.with_main_memory]. by rewrite length_insert. }
    exists m'. split; [exact Hloop|]. split; [exact Hlen'|].
    intros a Ha. rewrite (Hm' a Ha). unfold mem, V.
    cbn [Core.main_memory Core.with_main_memory Core.v].
    destruct (Z.leb_spec (i0 + (from + 1)) a),
             (Z.ltb_spec a (i0 + (from + 1) + Z.of_nat count)),
             (Z.leb_spec (i0 + from) a),
             (Z.ltb_spec a (i0 + from + Z.of_nat (S count)));
      cbn [andb]; try lia; try reflexivity.
    + rewrite at_index_insert_ne by lia. reflexivity.
    + replace a with (i0 + from) by lia.
      rewrite at_index_insert_eq by lia. f_equal. f_equal. lia.
    + rewrite at_index_insert_ne by lia. reflexivity.
Qed.

(** The loop of FX65 from index [from]. *)
Lemma load_loop i0 :
  ∀ (count : nat) from s,
    0 ≤ from → 0 ≤ i0 → from + Z.of_nat count ≤ 16 →
    i0 + from + Z.of_nat count ≤ 4096 →
    length (Core.v s) = 16%nat →
    ∃ v', Core.for_loop count from
            (λ j _, mj ← Core.mem_read (i0 + j); Core.reg_write j mj) tt s
          = Ok (tt, Core.with_v v' s) ∧
          length v' = 16%nat ∧
          ∀ r, 0 ≤ r →
               at_index v' r =
               if (from <=? r) && (r <? from + Z.of_nat count)
               then to_uint8 (mem s (i0 + r)) else V s r.
Proof.
  induction count as [|count IH]; intros from s Hfrom Hi0 Hreg Hmem Hlen.
  - exists (Core.v s). simpl. unfold Core.ret.
    rewrite with_v_same. split; [done|]. split; [done|].
    intros r Hr. replace ((from <=? r) && (r <? from + Z.of_nat 0))
      with false; [done|]. symmetry. apply andb_false_iff.
    destruct (Z.leb_spec from r); [right; apply Z.ltb_ge; lia | by left].
  - simpl.
    rewrite (bind_eq _ _ s tt
               (set_reg from (to_uint8 (mem s (i0 + from))) s)).
    2:{ rewrite (bind_eq _ _ _ _ _ (mem_read_eq (i0 + from) s ltac:(lia))).
        apply reg_write_eq. lia. }
    destruct (IH (from + 1) (set_reg from (to_uint8 (mem s (i0 + from))) s))
      as (v' & Hloop & Hlen' & Hv'); [lia | lia | lia | lia | |].
    { by rewrite set_reg_length. }
    exists v'. split; [exact Hloop|]. split; [exact Hlen'|].
    intros r Hr. rewrite (Hv' r Hr).
    change (mem (set_reg from (to_uint8 (mem s (i0 + from))) s))
      with (mem s).
    destruct (Z.leb_spec (from + 1) r),
             (Z.ltb_spec r (from + 1 + Z.of_nat count)),
             (Z.leb_spec from r),
             (Z.ltb_spec r (from + Z.of_nat (S count)));
      cbn [andb]; try lia; try reflexivity.
    + rewrite V_set_reg_ne by lia. reflexivity.
    + replace r with from by lia. by rewrite V_set_reg_eq by lia.
    + rewrite V_set_reg_ne by lia. reflexivity.
Qed.

(** X18: store registers (FX55) with I + X inside memory copies V0 to
    VX into memory from I on, changes no other byte and leaves I and
    the registers as they were; when I + X falls outside memory the
    program stops. *)
Theorem store_registers rnd s :
  wf s → Core.is_waiting_for_keypress s = false →
  let w := fetched_instruction s in
  let x := op_x w in
  let i := Core.i s in
  op_top w = 0xF → op_nn w = 0x55 →
  (i + x < 4096 →
   ∃ s', Core.run_for_instruction rnd s = Ok (tt, s') ∧
         s' = Core.with_main_memory (Core.main_memory s') (after_fetch s) ∧
         (∀ j, 0 ≤ j ≤ x → mem s' (i + j) = V s j) ∧
         (∀ a, 0 ≤ a → a < i ∨ i + x < a → mem s' a = mem s a)) ∧
  (4096 ≤ i + x →
   Core.run_for_instruction rnd s = Abort index_out_of_range).
Proof.
  intros Hwf Hrun w x i Htop Hnn. subst w x i.
  pose proof (op_x_range (fetched_instruction s)) as Hx.
  assert (0 ≤ Core.i s < 4096 ∧ length (Core.main_memory s) = 4096%nat)
    as [Hi Hlen] by (by wf_split Hwf).
  split; intros Hbound.
  - destruct (store_loop (Core.i s)
                (Z.to_nat (op_x (fetched_instruction s) + 1)) 0 (after_fetch s))
      as (m' & Hloop & Hlen' & Hm'); [lia..| exact Hlen |].
    exists (Core.with_main_memory m' (after_fetch s)). split; [|split; [|split]].
    + step_F Hwf Hrun Htop Hnn 0x55. exact Hloop.
    + reflexivity.
    + intros j Hj. unfold mem at 1. cbn [Core.main_memory Core.with_main_memory].
      rewrite Hm' by lia.
      replace ((Core.i s + 0 <=? Core.i s + j) &&
               (Core.i s + j <?
                Core.i s + 0 +
                Z.of_nat (Z.to_nat (op_x (fetched_instruction s) + 1))))
        with true.
      * replace (Core.i s + j - Core.i s) with j by lia.
        apply to_uint8_small. apply (V_range s j Hwf).
      * symmetry. apply andb_true_iff. split; [apply Z.leb_le | apply Z.ltb_lt]; lia.
    + intros a Ha Hout. unfold mem at 1.
      cbn [Core.main_memory Core.with_main_memory].
      rewrite Hm' by lia.
      replace ((Core.i s + 0 <=? a) &&
               (a <? Core.i s + 0 +
                     Z.of_nat (Z.to_nat (op_x (fetched_instruction s) + 1))))
        with false; [reflexivity|].
      symmetry. apply andb_false_iff.
      destruct Hout; [left; apply Z.leb_gt | right; apply Z.ltb_ge]; lia.
  - step_F Hwf Hrun Htop Hnn 0x55.
    change (Core.i (after_fetch s)) with (Core.i s).
    apply (for_loop_abort_at _ _ _ (Z.to_nat (4096 - Core.i s))); [lia | |].
    + intros k acc s1 Hk. eexists. eexists.
      rewrite (bind_eq _ _ _ _ _ (reg_read_eq k s1 ltac:(lia))).
      apply mem_write_eq. lia.
    + intros acc s1.
      rewrite (bind_eq _ _ _ _ _
                 (reg_read_eq (0 + Z.of_nat (Z.to_nat (4096 - Core.i s))) s1
                    ltac:(lia))).
      apply mem_write_abort. lia.
Qed.

Lemma store_registers_witness :
  ∃ s', Core.run_for_instruction 0 (loaded_machine [0xF1; 0x55]) = Ok (tt, s') ∧
        mem s' 0x300 = 250 ∧ mem s' 0x301 = 10.
Proof.
  destruct (store_registers 0 (loaded_machine [0xF1; 0x55])) as [Hin _].
  - apply (bool_decide_unpack _). vm_compute. exact I.
  - reflexivity.
  - reflexivity.
  - reflexivity.
  - destruct Hin as (s' & Hrun & _ & Hmem & _); [vm_compute; reflexivity|].
    exists s'. split; [exact Hrun|]. split.
    + apply (Hmem 0). vm_compute. split; discriminate.
    + apply (Hmem 1). vm_compute. split; discriminate.
Defined.

(** X19: load registers (FX65) with I + X inside memory copies the
    bytes from I on into V0 to VX, changes no other register and
    leaves I and memory as they were; when I + X falls outside memory
    the program stops. *)
Theorem load_registers rnd s :
  wf s → Core.is_waiting_for_keypress s = false →
  let w := fetched_instruction s in
  let x := op_x w in
  let i := Core.i s in
  op_top w = 0xF → op_nn w = 0x65 →
  (i + x < 4096 →
   ∃ s', Core.run_for_instruction rnd s = Ok (tt, s') ∧
         s' = Core.with_v (Core.v s') (after_fetch s) ∧
         (∀ j, 0 ≤ j ≤ x → V s' j = mem s (i + j)) ∧
         (∀ r, x < r → V s' r = V s r)) ∧
  (4096 ≤ i + x →
   Core.run_for_instruction rnd s = Abort index_out_of_range).
Proof.
  intros Hwf Hrun w x i Htop Hnn. subst w x i.
  pose proof (op_x_range (fetched_instruction s)) as Hx.
  assert (0 ≤ Core.i s < 4096 ∧ length (Core.v s) = 16%nat ∧
          Forall uint8 (Core.main_memory s))
    as (Hi & Hlen & Hbytes) by (by wf_split Hwf).
  split; intros Hbound.
  - destruct (load_loop (Core.i s)
                (Z.to_nat (op_x (fetched_instruction s) + 1)) 0 (after_fetch s))
      as (v' & Hloop & Hlen' & Hv'); [lia..| exact Hlen |].
    exists (Core.with_v v' (after_fetch s)). split; [|split; [|split]].
    + step_F Hwf Hrun Htop Hnn 0x65. exact Hloop.
    + reflexivity.
    + intros j Hj. unfold V at 1. cbn [Core.v Core.with_v].
      rewrite Hv' by lia.
      replace ((0 <=? j) &&
               (j <? 0 + Z.of_nat (Z.to_nat (op_x (fetched_instruction s) + 1))))
        with true.
      * apply to_uint8_small. by apply at_index_range.
      * symmetry. apply andb_true_iff. split; [apply Z.leb_le | apply Z.ltb_lt]; lia.
    + intros r Hr. unfold V at 1. cbn [Core.v Core.with_v].
      rewrite Hv' by lia.
      replace (r <? 0 + Z.of_nat (Z.to_nat (op_x (fetched_instruction s) + 1)))
        with false; [by rewrite andb_false_r|].
      symmetry. apply Z.ltb_ge. lia.
  - step_F Hwf Hrun Htop Hnn 0x65.
    change (Core.i (after_fetch s)) with (Core.i s).
    apply (for_loop_abort_at _ _ _ (Z.to_nat (4096 - Core.i s))); [lia | |].
    + intros k acc s1 Hk. eexists. eexists.
      rewrite (bind_eq _ _ _ _ _ (mem_read_eq (Core.i s + k) s1 ltac:(lia))).
      apply reg_write_eq. lia.
    + intros acc s1. unfold mbind, Core.M_bind, Core.bind.
      by rewrite mem_read_abort by lia.
Qed.

Lemma load_registers_witness :
  ∃ s', Core.run_for_instruction 0 (loaded_machine [0xF1; 0x65]) = Ok (tt, s') ∧
        V s' 0 = 0 ∧ V s' 1 = 0.
Proof.
  destruct (load_registers 0 (loaded_machine [0xF1; 0x65])) as [Hin _].
  - apply (bool_decide_unpack _). vm_compute. exact I.
  - reflexivity.
  - reflexivity.
  - reflexivity.
  - destruct Hin as (s' & Hrun & _ & Hreg & _); [vm_compute; reflexivity|].
    exists s'. split; [exact Hrun|]. split.
    + apply (Hreg 0). vm_compute. split; discriminate.
    + apply (Hreg 1). vm_compute. split; discriminate.
Defined.

(** ** The latch and the sixteen key states *)

Lemma key_bit_range hexpad (j : nat) :
  (j < 16)%nat → 0 ≤ Core.key_bit hexpad j < 2 ^ 16.
Proof.
  intros Hj. unfold Core.key_bit. rewrite Z.shiftl_mul_pow2 by lia.
  assert (0 < 2 ^ Z.of_nat j < 2 ^ 16) as Hpow.
  { split; [apply Z.pow_pos_nonneg; lia | apply Z.pow_lt_mono_r; lia]. }
  destruct (nth j hexpad false); simpl of_bool; lia.
Qed.

Lemma key_bit_testbit hexpad (j : nat) k :
  0 ≤ k →
  Z.testbit (Core.key_bit hexpad j) k = (Z.of_nat j =? k) && nth j hexpad false.
Proof.
  intros Hk. unfold Core.key_bit. destruct (nth j hexpad false); simpl of_bool.
  - rewrite Z.shiftl_1_l, Z.pow2_bits_eqb by lia. by rewrite andb_true_r.
  - rewrite Z.shiftl_0_l, Z.bits_0. by rewrite andb_false_r.
Qed.

Lemma update_hexpad_bitmap_latch bitmap s :
  wf s →
  ∃ s', Core.update_hexpad_bitmap bitmap s = Ok (tt, s') ∧
        Core.hexpad s' = Hexpad.mk (to_uint16 bitmap).
Proof.
  intros Hwf.
  assert (0 ≤ Core.keypress_index_register s < 16) as Hk by (by wf_split Hwf).
  unfold Core.update_hexpad_bitmap, Core.reg_write, Hexpad.update_hexpad.
  run_monad. cbv beta iota zeta. rewrite to_uint16_idemp.
  destruct (Core.is_waiting_for_keypress s && _); cbv beta iota.
  - cbn [Core.keypress_index_register Core.with_is_waiting_for_keypress].
    rewrite (ltb_true _ 16 (proj2 Hk)). eexists. split; reflexivity.
  - eexists. split; reflexivity.
Qed.

(** X20: after a keypad update with sixteen key states, the latch is
    below 65536 and [is_key_pressed k] answers the [k]th state, for
    every key [k] from 0 to 15; an index of 16 or more stops the
    program. *)
Theorem update_hexpad_then_is_key_pressed hexpad s :
  wf s →
  ∃ s', Core.update_hexpad hexpad s = Ok (tt, s') ∧
        0 ≤ Hexpad.bitmap (Core.hexpad s') < 65536 ∧
        (∀ k : nat, (k < 16)%nat →
           Hexpad.is_key_pressed (Core.hexpad s') (Z.of_nat k) =
           Ok (nth k hexpad false)) ∧
        (∀ index, 16 ≤ index →
           Hexpad.is_key_pressed (Core.hexpad s') index =
           Abort index_out_of_range).
Proof.
  intros Hwf. unfold Core.update_hexpad.
  match goal with
  | |- context [Core.update_hexpad_bitmap ?b] => set (bitmap := b)
  end.
  assert (0 ≤ bitmap < 2 ^ 16) as Hrange.
  { subst bitmap. repeat (apply (lor_small 16); [lia | |]);
      apply key_bit_range; lia. }
  destruct (update_hexpad_bitmap_latch bitmap s Hwf) as (s' & Hrun & Hlatch).
  exists s'. split; [exact Hrun|]. rewrite Hlatch.
  unfold Hexpad.bitmap, Hexpad.is_key_pressed. cbn [Hexpad.hexpad_bitmap].
  rewrite (to_uint16_small bitmap) by (change 65536 with (2 ^ 16); lia).
  split; [change 65536 with (2 ^ 16); lia|]. split.
  - intros k Hk. rewrite (ltb_true (Z.of_nat k) 16) by lia.
    rewrite mask_test_is_testbit by lia. f_equal. subst bitmap.
    rewrite !Z.lor_spec, !key_bit_testbit by lia.
    do 16 (destruct k as [|k]; [simpl; by rewrite ?orb_false_r|]). lia.
  - intros index Hidx. by rewrite (ltb_false index 16) by lia.
Qed.

Lemma update_hexpad_then_is_key_pressed_witness :
  ∃ s', Core.update_hexpad
          [false; false; true; false; false; false; false; false;
           false; false; false; false; false; false; false; true]
          index_machine = Ok (tt, s') ∧
        Hexpad.is_key_pressed (Core.hexpad s') 2 = Ok true ∧
        Hexpad.is_key_pressed (Core.hexpad s') 3 = Ok false.
Proof.
  destruct (update_hexpad_then_is_key_pressed
              [false; false; true; false; false; false; false; false;
               false; false; false; false; false; false; false; true]
              index_machine) as (s' & Hrun & _ & Hkeys & _).
  - apply (bool_decide_unpack _). vm_compute. exact I.
  - exists s'. split; [exact Hrun|]. split.
    + apply (Hkeys 2%nat). lia.
    + apply (Hkeys 3%nat). lia.
Defined.

(** ** Timer ticks *)

Lemma tick_timers_eq s :
  uint8 (Core.timer_delay s) → uint8 (Core.timer_sound s) →
  Core.tick_timers s =
    Core.with_timer_sound (Z.max 0 (Core.timer_sound s - 1))
      (Core.with_timer_delay (Z.max 0 (Core.timer_delay s - 1)) s).
Proof.
  unfold uint8. intros Hd Hs. unfold Core.tick_timers.
  cbn [Core.timer_sound Core.with_timer_delay].
  destruct (Z.ltb_spec 0 (Core.timer_delay s)),
           (Z.ltb_spec 0 (Core.timer_sound s));
    rewrite ?to_uint8_small by lia; f_equal; try f_equal; lia.
Qed.

(** X21: [n] timer ticks in a row leave each timer at its value minus
    [n], or at 0 when it held less than [n], and change nothing else:
    a timer set to [d] reads 0 from the [d]th tick on. *)
Theorem ticks_count_down (n : nat) s :
  uint8 (Core.timer_delay s) → uint8 (Core.timer_sound s) →
  ticks n s =
    Core.with_timer_sound (Z.max 0 (Core.timer_sound s - Z.of_nat n))
      (Core.with_timer_delay (Z.max 0 (Core.timer_delay s - Z.of_nat n)) s).
Proof.
  revert s. induction n as [|n IH]; intros s Hd Hs.
  - unfold uint8 in *. simpl. rewrite !Z.sub_0_r, !Z.max_r by lia.
    by destruct s.
  - cbn [ticks]. rewrite tick_timers_eq by done. unfold uint8 in *.
    rewrite IH by (cbn [Core.timer_delay Core.timer_sound
                        Core.with_timer_delay Core.with_timer_sound];
                   unfold uint8; lia).
    cbn [Core.timer_delay Core.timer_sound Core.with_timer_delay
         Core.with_timer_sound].
    unfold Core.with_timer_sound, Core.with_timer_delay.
    cbn [Core.v Core.pc Core.i Core.main_memory Core.sp Core.stack
         Core.timer_sound Core.timer_delay Core.fb Core.hexpad
         Core.is_waiting_for_keypress Core.keypress_index_register].
    f_equal; lia.
Qed.

Lemma ticks_count_down_witness :
  Core.timer_delay (ticks 3 timer_machine) = 2 ∧
  Core.timer_delay (ticks 9 timer_machine) = 0 ∧
  Core.timer_sound (ticks 9 timer_machine) = 0.
Proof.
  assert (uint8 (Core.timer_delay timer_machine) ∧
          uint8 (Core.timer_sound timer_machine)) as [Hd Hs]
    by (vm_compute; repeat split; discriminate).
  rewrite (ticks_count_down 3 timer_machine Hd Hs).
  rewrite (ticks_count_down 9 timer_machine Hd Hs).
  repeat split.
Defined.

(** ** Creation *)

Lemma for_loop_ext {A} (body body' : Z → A → Core.M A) :
  (∀ k acc s, body k acc s = body' k acc s) →
  ∀ count from acc s,
    Core.for_loop count from body acc s = Core.for_loop count from body' acc s.
Proof.
  intros Hext. induction count as [|count IH]; intros from acc s; [done|].
  simpl. unfold mbind, Core.M_bind, Core.bind. rewrite Hext.
  destruct (body' from acc s) as [[acc1 s1]|f]; [apply IH | done].
Qed.

(** A loop of writes of [val k] at [k + off]. *)
Lemma write_loop off (val : Z → Z) :
  ∀ (count : nat) from s,
    0 ≤ from + off → from + off + Z.of_nat count ≤ 4096 →
    length (Core.main_memory s) = 4096%nat →
    ∃ m', Core.for_loop count from
            (λ k _, Core.mem_write (k + off) (val k)) tt s
          = Ok (tt, Core.with_main_memory m' s) ∧
          length m' = 4096%nat ∧
          ∀ a, 0 ≤ a →
               at_index m' a =
               if (from + off <=? a) && (a <? from + off + Z.of_nat count)
               then to_uint8 (val (a - off)) else mem s a.
Proof.
  induction count as [|count IH]; intros from s Hfrom Hmem Hlen.
  - exists (Core.main_memory s). simpl. unfold Core.ret.
    rewrite with_main_memory_same. split; [done|]. split; [done|].
    intros a Ha.
    replace ((from + off <=? a) && (a <? from + off + Z.of_nat 0))
      with false; [done|]. symmetry. apply andb_false_iff.
    destruct (Z.leb_spec (from + off) a);
      [right; apply Z.ltb_ge; lia | by left].
  - simpl.
    rewrite (bind_eq _ _ _ _ _
               (mem_write_eq (from + off) (val from) s ltac:(lia))).
    destruct (IH (from + 1)
                (Core.with_main_memory
                   (<[Z.to_nat (from + off) := to_uint8 (val from)]>
                      (Core.main_memory s)) s))
      as (m' & Hloop & Hlen' & Hm'); [lia | lia | |].
    { cbn [Core.main_memory Core.with_main_memory]. by rewrite length_insert. }
    exists m'. split; [exact Hloop|]. split; [exact Hlen'|].
    intros a Ha. rewrite (Hm' a Ha). unfold mem.
    cbn [Core.main_memory Core.with_main_memory].
    destruct (Z.leb_spec (from + 1 + off) a),
             (Z.ltb_spec a (from + 1 + off + Z.of_nat count)),
             (Z.leb_spec (from + off) a),
             (Z.ltb_spec a (from + off + Z.of_nat (S count)));
      cbn [andb]; try lia; try reflexivity.
    + rewrite at_index_insert_ne by lia. reflexivity.
    + replace a with (from + off) by lia.
      rewrite at_index_insert_eq by lia. f_equal. f_equal. lia.
    + rewrite at_index_insert_ne by lia. reflexivity.
Qed.

Lemma font_data_bytes : Forall uint8 Core.FONT_DATA.
Proof. apply (bool_decide_unpack _). by vm_compute. Qed.

(** X22: [create] on a ROM of at most 3584 bytes returns a machine
    with the font table at addresses 0 to 79, the ROM bytes (modulo
    256) from address 512 on, zero in every other byte, the program
    counter at 512 and every other field zero; on a longer ROM it
    stops the program. *)
Theorem create_memory_layout rom :
  ((length rom ≤ 3584)%nat →
   ∃ s, Core.create rom = Ok s ∧
        s = Core.with_pc 0x200
              (Core.with_main_memory (Core.main_memory s) Core.zero_init) ∧
        (∀ a, 0 ≤ a < 80 → mem s a = at_index Core.FONT_DATA a) ∧
        (∀ k, 0 ≤ k < Z.of_nat (length rom) →
              mem s (512 + k) = at_index rom k mod 256) ∧
        (∀ a, 80 ≤ a < 512 ∨ 512 + Z.of_nat (length rom) ≤ a → mem s a = 0)) ∧
  ((3584 < length rom)%nat → Core.create rom = Abort rom_too_large).
Proof.
  split; intros Hlen.
  - destruct (write_loop 512 (at_index rom) (length rom) 0 Core.zero_init)
      as (m1 & H1 & Hlen1 & Hm1); [lia | lia | reflexivity |].
    destruct (write_loop 0 (at_index Core.FONT_DATA) (length Core.FONT_DATA) 0
                (Core.with_main_memory m1 Core.zero_init))
      as (m2 & H2 & Hlen2 & Hm2); [lia | simpl; lia | exact Hlen1 |].
    rewrite (for_loop_ext _ (λ k _, Core.mem_write k
                                      (at_index Core.FONT_DATA k))) in H2
      by (intros; by rewrite Z.add_0_r).
    exists (Core.with_pc 0x200 (Core.with_main_memory m2 Core.zero_init)).
    split; [|split; [reflexivity|]].
    + unfold Core.create. run_monad.
      replace (4096 - 512 <? Z.of_nat (length rom)) with false
        by (symmetry; apply Z.ltb_ge; lia).
      cbv beta iota. rewrite H1. cbv beta iota. rewrite H2. reflexivity.
    + unfold mem. cbn [Core.main_memory Core.with_main_memory Core.with_pc].
      assert (∀ a, mem Core.zero_init a = 0) as Hzero
        by (intros; apply at_index_replicate_0).
      change (length Core.FONT_DATA) with 80%nat in Hm2.
      unfold mem at 1 in Hm2.
      cbn [Core.main_memory Core.with_main_memory] in Hm2.
      split; [|split].
      * intros a Ha. rewrite Hm2 by lia.
        rewrite (proj2 (Z.leb_le _ _)), (ltb_true a) by lia. cbn [andb].
        rewrite Z.sub_0_r. apply to_uint8_small.
        apply at_index_range, font_data_bytes.
      * intros k Hk. rewrite Hm2 by lia.
        rewrite (ltb_false (512 + k)) by lia. rewrite andb_false_r.
        rewrite Hm1 by lia.
        rewrite (proj2 (Z.leb_le _ _)), (ltb_true (512 + k)) by lia.
        cbn [andb]. unfold to_uint8. do 2 f_equal. lia.
      * intros a Ha. rewrite Hm2 by lia.
        rewrite (ltb_false a (0 + 0 + Z.of_nat 80)) by lia.
        rewrite andb_false_r, Hm1 by lia.
        destruct Ha as [Ha|Ha].
        -- rewrite (proj2 (Z.leb_gt _ _)) by lia. apply Hzero.
        -- rewrite (ltb_false a) by lia. rewrite andb_false_r. apply Hzero.
  - unfold Core.create. run_monad.
    by replace (4096 - 512 <? Z.of_nat (length rom)) with true
      by (symmetry; apply Z.ltb_lt; lia).
Qed.

Lemma create_memory_layout_witness :
  ∃ s, Core.create [0x12; 0x34] = Ok s ∧
       mem s 0 = 0xF0 ∧ mem s 512 = 0x12 ∧ mem s 513 = 0x34 ∧ mem s 514 = 0.
Proof.
  destruct (create_memory_layout [0x12; 0x34]) as [Hok _].
  destruct Hok as (s & Hc & _ & Hfont & Hrom & Hzero); [simpl; lia|].
  exists s. split; [exact Hc|]. split; [|split; [|split]].
  - apply (Hfont 0). lia.
  - apply (Hrom 0). simpl. lia.
  - apply (Hrom 1). simpl. lia.
  - apply Hzero. right. simpl. lia.
Defined.

(** ** What a step leaves alone *)

(** Walks through a computation for a property that every field
    assignment in it keeps. *)
Ltac frame_tac :=
  repeat lazymatch goal with
  | |- preserves _ (_ ≫= _) => apply preserves_bind; [| intros ?]
  | |- preserves _ (Core.for_loop _ _ _ _) =>
      apply preserves_for_loop; intros ? ?
  | |- preserves _ (if ?b then _ else _) => destruct b
  | |- preserves _ (Core.modify _) =>
      apply preserves_modify; intros ? ?; assumption
  | |- preserves _ (Core.ret _) => apply preserves_ret
  | |- preserves _ (Core.abort _) => apply preserves_abort
  | |- preserves _ (Core.gets _) => apply preserves_gets
  | |- preserves _ (Core.assert _) => apply preserves_assert
  | |- preserves _ (Core.lift _) => apply preserves_lift
  | |- preserves _ _ => progress cbv zeta
  end.

Ltac unfold_accessors :=
  unfold Core.reg_read, Core.reg_write, Core.mem_read, Core.mem_write,
    Core.vf_set, Core.i_get, Core.i_set, Core.skip_instr, Core.fetch,
    Core.pc_get, Core.pc_set, Core.stack_push, Core.stack_pop, Core.fb_clear,
    Core.fb_pixel_status, Core.fb_set_pixel, Core.hexpad_is_key_pressed.

Lemma execute_keeps_latch h rnd instruction nnn nn n x y vx vy v0 i pc
    key_pressed in000 i000n i00nn :
  preserves (λ s, Core.hexpad s = h)
    (Core.execute rnd instruction nnn nn n x y vx vy v0 i pc
       key_pressed in000 i000n i00nn).
Proof.
  unfold Core.execute. unfold_accessors.
  repeat case_match; frame_tac.
Qed.

(** X23: no instruction writes the keypad latch, and neither does a
    timer tick: after any step that returns, and after any batch of
    steps followed by a tick, the latch is what it was. *)
Theorem steps_never_write_the_latch :
  (∀ rnd s s',
     Core.run_for_instruction rnd s = Ok (tt, s') →
     Core.hexpad s' = Core.hexpad s) ∧
  (∀ rand instructions s s',
     Core.run_for_instructions_then_tick_timers rand instructions s
       = Ok (tt, s') →
     Core.hexpad s' = Core.hexpad s).
Proof.
  assert (∀ h r, preserves (λ s0, Core.hexpad s0 = h)
                   (Core.run_for_instruction r)) as Hstep.
  { intros h r. unfold Core.run_for_instruction, Core.decode, Core.fetch.
    unfold_accessors.
    apply preserves_bind; [apply preserves_gets | intros waiting].
    destruct waiting; frame_tac. apply execute_keeps_latch. }
  split.
  - intros rnd s s' H. exact (Hstep _ rnd s tt s' eq_refl H).
  - intros rand instructions s s' H.
    assert (preserves (λ s0, Core.hexpad s0 = Core.hexpad s)
              (Core.run_for_instructions_then_tick_timers rand instructions))
      as Hbatch.
    { unfold Core.run_for_instructions_then_tick_timers.
      apply preserves_bind.
      - clear -Hstep. induction instructions as [|n IH]; simpl.
        + apply preserves_ret.
        + apply preserves_bind; [apply Hstep | intros; apply IH].
      - intros _. apply preserves_modify. intros s0 Hs0. exact Hs0. }
    exact (Hbatch s tt s' eq_refl H).
Qed.

Lemma steps_never_write_the_latch_witness :
  ∃ s', Core.run_for_instructions_then_tick_timers (λ _, 0) 1
          (Core.with_hexpad (Hexpad.mk 0x8001)
             (loaded_machine [0xE0; 0xA1])) = Ok (tt, s') ∧
        Core.hexpad s' = Hexpad.mk 0x8001.
Proof.
  destruct steps_never_write_the_latch as [_ Hbatch].
  eexists. split; [vm_compute; reflexivity|].
  apply (Hbatch (λ _, 0) 1%nat
           (Core.with_hexpad (Hexpad.mk 0x8001) (loaded_machine [0xE0; 0xA1]))).
  vm_compute. reflexivity.
Defined.

Lemma execute_keeps_framebuffer f rnd instruction nnn nn n x y vx vy v0 i pc
    key_pressed in000 i000n i00nn :
  (instruction =? 0x00e0) = false → in000 ≠ 0xd →
  preserves (λ s, Core.fb s = f)
    (Core.execute rnd instruction nnn nn n x y vx vy v0 i pc
       key_pressed in000 i000n i00nn).
Proof.
  intros Hclear Hdraw. unfold Core.execute. rewrite Hclear.
  unfold Core.reg_read, Core.reg_write, Core.mem_read, Core.mem_write,
    Core.vf_set, Core.i_get, Core.i_set, Core.skip_instr,
    Core.pc_get, Core.pc_set, Core.stack_push, Core.stack_pop.
  repeat case_match; try done; frame_tac.
Qed.

(** X24: only clear screen (00E0) and draw (top nibble D) touch the
    framebuffer: a step on any other word that returns leaves every
    pixel as it was. *)
Theorem only_clear_and_draw_touch_the_framebuffer rnd s s' :
  wf s → Core.is_waiting_for_keypress s = false →
  let w := fetched_instruction s in
  w ≠ 0x00E0 → op_top w ≠ 0xD →
  Core.run_for_instruction rnd s = Ok (tt, s') →
  Core.fb s' = Core.fb s.
Proof.
  intros Hwf Hrun w Hclear Hdraw. subst w.
  rewrite (step_execute _ _ Hwf Hrun). cbv zeta.
  pose proof (fetched_instruction_range s) as Hw.
  assert (0 ≤ op_top (fetched_instruction s) < 16) as Htop.
  { unfold op_top. rewrite Z.shiftr_div_pow2 by lia. change (2 ^ 12) with 4096.
    split; [apply Z.div_pos; lia | apply Z.div_lt_upper_bound; lia]. }
  apply (execute_keeps_framebuffer (Core.fb s)); [| |reflexivity].
  - by apply Z.eqb_neq.
  - rewrite to_uint8_small by lia. exact Hdraw.
Qed.

Lemma only_clear_and_draw_touch_the_framebuffer_witness :
  ∃ s', Core.run_for_instruction 0 (loaded_machine [0xF1; 0x55]) = Ok (tt, s') ∧
        Core.fb s' = Core.fb (loaded_machine [0xF1; 0x55]).
Proof.
  assert (∃ s', Core.run_for_instruction 0 (loaded_machine [0xF1; 0x55])
                = Ok (tt, s')) as [s' Hrun]
    by (eexists; vm_compute; reflexivity).
  exists s'. split; [exact Hrun|].
  apply (only_clear_and_draw_touch_the_framebuffer 0
           (loaded_machine [0xF1; 0x55]) s').
  - apply (bool_decide_unpack _). vm_compute. exact I.
  - reflexivity.
  - vm_compute. discriminate.
  - vm_compute. discriminate.
  - exact Hrun.
Defined.

(** ** The invariant, the fetch and the draw bounds *)

(** X25: every state reachable from [create] through steps, timer
    ticks and keypad updates keeps the representation invariant: the
    arrays keep their sizes, registers, memory bytes and timers stay
    below 256, the program counter and I below 4096, the stack pointer
    between 0 and 16, the latch below 65536 and the wait target below
    16. *)
Theorem reachable_states_are_well_formed s : reachable s → wf s.
Proof.
  induction 1 as [rom s Hc | rnd s s' _ IH Hs | s _ IH | hexpad s s' _ IH Hu].
  - exact (create_wf rom s Hc).
  - exact (run_for_instruction_wf rnd s tt s' IH Hs).
  - exact (tick_timers_wf s IH).
  - exact (update_hexpad_wf hexpad s tt s' IH Hu).
Qed.

Lemma reachable_states_are_well_formed_witness :
  0 ≤ Core.sp full_stack_machine ≤ 16.
Proof.
  assert (reachable full_stack_machine) as Hr.
  { apply (boot_reachable [0x22; 0x00] 16). vm_compute. reflexivity. }
  destruct (reachable_states_are_well_formed full_stack_machine Hr)
    as (_ & _ & _ & _ & _ & _ & Hsp & _).
  exact Hsp.
Defined.

Lemma instruction_word_bytes hi lo :
  uint8 hi → uint8 lo → Core.instruction_word hi lo = 256 * hi + lo.
Proof.
  unfold uint8. intros Hhi Hlo. unfold Core.instruction_word.
  assert (Z.land (Z.shiftl hi 8) lo = 0) as Hdisjoint.
  { apply Z.bits_inj'. intros k Hk. rewrite Z.land_spec, Z.bits_0.
    destruct (Z.lt_ge_cases k 8) as [Hlow|Hhigh].
    - by rewrite Z.shiftl_spec_low.
    - rewrite (proj1 (small_iff_high_bits_clear 8 lo ltac:(lia) ltac:(lia))
                 ltac:(lia) k Hhigh).
      apply andb_false_r. }
  rewrite <- Z.lxor_lor, <- Z.add_nocarry_lxor by exact Hdisjoint.
  rewrite Z.shiftl_mul_pow2 by lia. change (2 ^ 8) with 256.
  rewrite to_uint16_small by lia. lia.
Qed.

(** X26: a step of a running core reads the byte at the program
    counter as the high byte and the next byte, at the program counter
    plus 1 modulo 4096, as the low byte, moves the program counter 2
    further modulo 4096, and only then decodes the word. *)
Theorem step_reads_big_endian_word rnd s :
  wf s → Core.is_waiting_for_keypress s = false →
  let hi := mem s (Core.pc s) in
  let lo := mem s ((Core.pc s + 1) mod 4096) in
  fetched_instruction s = 256 * hi + lo ∧
  Core.run_for_instruction rnd s =
    Core.decode rnd (256 * hi + lo)
      (Core.with_pc ((Core.pc s + 2) mod 4096) s).
Proof.
  intros Hwf Hrun hi lo. subst hi lo.
  assert (fetched_instruction s =
          256 * mem s (Core.pc s) + mem s ((Core.pc s + 1) mod 4096)) as Hw.
  { unfold fetched_instruction. rewrite next_pc_mod.
    apply instruction_word_bytes; apply at_index_range; by wf_split Hwf. }
  split; [exact Hw|].
  rewrite run_for_instruction_running by assumption. rewrite Hw.
  f_equal. pose proof (after_fetch_pc s) as Hpc. unfold after_fetch in Hpc.
  cbn [Core.pc Core.with_pc] in Hpc. by rewrite Hpc.
Qed.

Lemma step_reads_big_endian_word_witness :
  fetched_instruction index_machine = 0 ∧
  fetched_instruction (state_of (Core.create [0xA1; 0x23])) = 0xA123.
Proof.
  split.
  - destruct (step_reads_big_endian_word 0 index_machine) as [Hw _].
    + apply (bool_decide_unpack _). vm_compute. exact I.
    + reflexivity.
    + rewrite Hw. vm_compute. reflexivity.
  - destruct (step_reads_big_endian_word 0
                (state_of (Core.create [0xA1; 0x23]))) as [Hw _].
    + apply (bool_decide_unpack _). vm_compute. exact I.
    + reflexivity.
    + rewrite Hw. vm_compute. reflexivity.
Defined.

Lemma fb_pixel_status_Ok x y s :
  0 ≤ x < 60 → 0 ≤ y < 60 → ∃ b, Core.fb_pixel_status x y s = Ok (b, s).
Proof.
  intros Hx Hy. unfold Core.fb_pixel_status, Framebuffer.pixel_status,
    Framebuffer.FB_WIDTH, Framebuffer.FB_HEIGHT.
  run_monad. rewrite (ltb_true x 60), (ltb_true y 60) by lia.
  cbn [andb]. eauto.
Qed.

Lemma fb_set_pixel_Ok x y status s :
  0 ≤ x < 60 → 0 ≤ y < 60 →
  ∃ s', Core.fb_set_pixel x y status s = Ok (tt, s').
Proof.
  intros Hx Hy. unfold Core.fb_set_pixel, Framebuffer.set_pixel,
    Framebuffer.FB_WIDTH, Framebuffer.FB_HEIGHT.
  run_monad. rewrite (ltb_true x 60), (ltb_true y 60) by lia.
  cbn [andb]. eauto.
Qed.

(** X27: a draw (DXYN) of height 0 writes 0 in VF and changes nothing
    else; a draw whose rows reach past the end of memory (I + N above
    4096) stops the program: sprite rows do not wrap around. *)
Theorem draw_edge_cases rnd s :
  wf s → Core.is_waiting_for_keypress s = false →
  let w := fetched_instruction s in
  op_top w = 0xD →
  (op_n w = 0 →
   Core.run_for_instruction rnd s = Ok (tt, set_reg 15 0 (after_fetch s))) ∧
  (4096 < Core.i s + op_n w →
   Core.run_for_instruction rnd s = Abort index_out_of_range).
Proof.
  intros Hwf Hrun w Htop. subst w.
  pose proof (op_n_range (fetched_instruction s)) as Hn.
  pose proof (op_x_range (fetched_instruction s)) as Hx.
  pose proof (op_y_range (fetched_instruction s)) as Hy.
  assert (0 ≤ Core.i s < 4096) as Hi by (by wf_split Hwf).
  split.
  - intros Hzero. step_top Hwf Hrun Htop.
    change (to_uint8 0xD) with 0xD. cbv iota. by rewrite Hzero.
  - intros Hpast. step_top Hwf Hrun Htop.
    change (to_uint8 0xD) with 0xD. cbv iota.
    change (Core.i (after_fetch s)) with (Core.i s).
    unfold mbind at 1. unfold Core.M_bind, Core.bind.
    rewrite (for_loop_abort_at _ index_out_of_range _
               (Z.to_nat (4096 - Core.i s))); [done | lia | |].
    + intros h acc s1 Hh.
      rewrite (bind_eq _ _ _ _ _ (mem_read_eq (Core.i s + h) s1 ltac:(lia))).
      destruct (for_loop_Ok (λ _, True)
                  (Z.to_nat (op_n (fetched_instruction s)))
                  (λ w collision,
                     let xp := to_uint32
                       ((V s (op_x (fetched_instruction s)) + w)
                        mod Framebuffer.FB_WIDTH) in
                     let yp := to_uint32
                       ((V s (op_y (fetched_instruction s)) + h)
                        mod Framebuffer.FB_HEIGHT) in
                     let new_pixel :=
                       negb (Z.land (mem s1 (Core.i s + h)) (Z.shiftl 1 w) =? 0) in
                     old_pixel ← Core.fb_pixel_status xp yp;
                     let collision :=
                       collision || negb (eqb old_pixel new_pixel) in
                     Core.fb_set_pixel (op_x (fetched_instruction s))
                       (op_y (fetched_instruction s)) true;;
                     Core.ret collision) 0 acc s1 I)
        as (acc' & s' & Hloop & _); [|eauto].
      intros k acc0 s0 Hk _. cbv zeta. unfold Framebuffer.FB_WIDTH,
        Framebuffer.FB_HEIGHT.
      assert (∀ z, 0 ≤ to_uint32 (z mod 60) < 60) as Hmod.
      { intros z. pose proof (Z.mod_pos_bound z 60 ltac:(lia)).
        unfold to_uint32. rewrite Z.mod_small; lia. }
      destruct (fb_pixel_status_Ok _ _ s0
                  (Hmod (V s (op_x (fetched_instruction s)) + k))
                  (Hmod (V s (op_y (fetched_instruction s)) + h))) as [b Hb].
      rewrite (bind_eq _ _ _ _ _ Hb).
      destruct (fb_set_pixel_Ok (op_x (fetched_instruction s))
                  (op_y (fetched_instruction s)) true s0 ltac:(lia) ltac:(lia))
        as [s0' Hs0'].
      rewrite (bind_eq _ _ _ _ _ Hs0'). unfold Core.ret. eauto.
    + intros acc s1. unfold mbind, Core.M_bind, Core.bind.
      by rewrite mem_read_abort by lia.
Qed.

Lemma draw_edge_cases_witness :
  Core.run_for_instruction 0 (loaded_machine [0xD0; 0x10]) =
    Ok (tt, set_reg 15 0 (after_fetch (loaded_machine [0xD0; 0x10]))).
Proof.
  destruct (draw_edge_cases 0 (loaded_machine [0xD0; 0x10])) as [Hzero _].
  - apply (bool_decide_unpack _). vm_compute. exact I.
  - reflexivity.
  - reflexivity.
  - apply Hzero. reflexivity.
Defined.
